(** * Serverless e-commerce API: handlers over a single-table store

    A shallow embedding of the Lambda handlers of the repository
    (src/handlers/auth.js, products.js, orders.js), of the helpers they call
    (src/utils/auth.js, src/utils/response.js, src/services/dynamodb.js) and
    of the behaviour of the libraries these lean on (Joi, jsonwebtoken,
    bcryptjs, uuid, the DynamoDB document client), followed by the properties
    the specification states about them.

    Conventions of the model.
    - JavaScript numbers are exact rationals ([Qc]); IEEE-754 rounding is
      not modelled.
    - Strings are byte strings; [length] is the JavaScript length on ASCII.
    - A handler runs in a [World] (the table, and how many timestamps and
      identifiers were drawn so far) and either completes normally or throws;
      the [try { ... } catch] around every handler body turns a throw into the
      generic 500 response.
    - The store never fails on its own: it throws only where DynamoDB rejects
      the request it is given (a key attribute that is not a string, an
      update that assigns a key attribute, an undefined placeholder, ...). *)

From Stdlib Require Import QArith Qcanon.
From stdpp Require Import base strings gmap list pretty numbers.

Local Open Scope string_scope.
Local Open Scope list_scope.
Local Set Warnings "-register-all".

(** ** JSON values and JavaScript objects *)

Inductive json : Type :=
| JNull
| JBool (b : bool)
| JNum (n : Qc)
| JStr (s : string)
| JArr (l : list json)
| JObj (o : list (string * json)).

(** An object with string keys whose attribute order is immaterial: a stored
    DynamoDB item, or an object literal built by a handler. *)
Abbreviation item := (gmap string json).

(** [o[k]] on the entries of a parsed object; [None] is [undefined]. *)
Fixpoint obj_get (k : string) (o : list (string * json)) : option json :=
  match o with
  | [] => None
  | (k', v) :: o' => if String.eqb k k' then Some v else obj_get k o'
  end.

(** [v.k]: property access on a parsed JSON value.  Primitive wrappers and
    arrays have none of the property names the handlers read. *)
Definition prop (k : string) (v : json) : option json :=
  match v with
  | JObj o => obj_get k o
  | _ => None
  end.

(** [{ ...base, ...o }]: object spread, later keys win. *)
Definition spread (base : item) (o : list (string * json)) : item :=
  foldl (λ acc kv, <[kv.1 := kv.2]> acc) base o.

(** ** String helpers of the JavaScript standard library *)

Definition startsWith (s pre : string) : bool := String.prefix pre s.

(** [s.substring(n)] *)
Fixpoint substring_from (n : nat) (s : string) : string :=
  match n, s with
  | O, _ => s
  | S n', String _ s' => substring_from n' s'
  | S _, EmptyString => EmptyString
  end.

(** [s.replace(pat, rep)] with a string pattern: the first occurrence only. *)
Fixpoint replace (pat rep s : string) : string :=
  if String.prefix pat s then rep +:+ substring_from (String.length pat) s
  else match s with
       | EmptyString => EmptyString
       | String c s' => String c (replace pat rep s')
       end.

Arguments substring_from : simpl never.
Arguments replace : simpl never.

(** Truthiness of a header value: [undefined] and the empty string are falsy. *)
Definition truthy (h : option string) : bool :=
  match h with
  | Some s => negb (String.eqb s "")
  | None => false
  end.

(** ** Requests, the environment and the world *)

(** What [JSON.parse(event.body)] does with the body of the request. *)
Inductive parsed : Type :=
| SyntaxError
| Parsed (value : json).

Record event : Type := Event {
  headers : gmap string string;
  pathParameters : gmap string string;
  body : parsed;
}.

(** The payload of a verified token. *)
Record claims : Type := Claims {
  userId : string;
  email : string;
}.

(** Configuration and library functions the handlers call. *)
Record Env : Type := {
  JWT_SECRET : option string;             (* process.env.JWT_SECRET *)
  jwt_verify : string → string → option claims;  (* token, secret; None = throws *)
  jwt_sign : claims → string → string;    (* payload, secret, 24h expiry *)
  bcrypt_hash : string → string;          (* bcrypt.hash(password, 10) *)
  bcrypt_compare : string → string → bool;
  uuidv4 : nat → string;                  (* the n-th identifier drawn *)
  toISOString : nat → string;             (* the n-th reading of the clock *)
  is_email : string → bool;               (* Joi.string().email() *)
  is_uri : string → bool;                 (* Joi.string().uri() *)
}.

Record World : Type := MkWorld {
  table : gmap (string * string) item;
  ticks : nat;
  draws : nat;
}.

(** ** Computations that may throw *)

Inductive completion (A : Type) : Type :=
| Normal (a : A)
| Throw (e : string).
Arguments Normal {A} a.
Arguments Throw {A} e.

Definition js (A : Type) : Type := World → completion A * World.

Definition ret {A} (a : A) : js A := λ w, (Normal a, w).

Definition throw {A} (e : string) : js A := λ w, (Throw e, w).

Definition bind {A B} (m : js A) (k : A → js B) : js B :=
  λ w, match m w with
       | (Normal a, w') => k a w'
       | (Throw e, w') => (Throw e, w')
       end.

Notation "'let*' x := m 'in' k" := (bind m (λ x, k))
  (at level 10, x name, m at level 100, k at level 200, only parsing).
Notation "m ;;; k" := (bind m (λ _, k))
  (at level 100, k at level 200, right associativity, only parsing).

(** [new Date().toISOString()] *)
Definition now (env : Env) : js string :=
  λ w, (Normal (toISOString env (ticks w)),
        MkWorld (table w) (S (ticks w)) (draws w)).

(** [uuidv4()] *)
Definition fresh_uuid (env : Env) : js string :=
  λ w, (Normal (uuidv4 env (draws w)),
        MkWorld (table w) (ticks w) (S (draws w))).

(** [JSON.parse(event.body)] *)
Definition JSON_parse (b : parsed) : js json :=
  match b with
  | SyntaxError => throw "SyntaxError"
  | Parsed v => ret v
  end.

(** ** src/utils/response.js *)

Module Response.

Inductive payload : Type :=
| Value (j : json)
| Record_ (i : item)
| Message (message : string).

(** The object handed to [JSON.stringify]. *)
Inductive envelope : Type :=
| Success (data : payload)
| Failure (error : string).

Definition allowedOrigins : list string :=
  [ "http://localhost:3000";
    "http://localhost:8080";
    "https://your-frontend-domain.com";
    "https://your-production-domain.com" ].

Definition getCorsHeaders (origin : option string) : list (string * json) :=
  let corsOrigin :=
    match origin with
    | Some o => if bool_decide (o ∈ allowedOrigins) then o
                else "http://localhost:3000"
    | None => "http://localhost:3000"
    end in
  [ ("Content-Type", JStr "application/json");
    ("Access-Control-Allow-Origin", JStr corsOrigin);
    ("Access-Control-Allow-Credentials", JBool true);
    ("Access-Control-Allow-Headers",
     JStr "Content-Type,X-Amz-Date,Authorization,X-Api-Key,X-Amz-Security-Token");
    ("Access-Control-Allow-Methods", JStr "GET,POST,PUT,DELETE,OPTIONS");
    ("X-Content-Type-Options", JStr "nosniff");
    ("X-Frame-Options", JStr "DENY");
    ("X-XSS-Protection", JStr "1; mode=block");
    ("Strict-Transport-Security", JStr "max-age=31536000; includeSubDomains") ].

(** [event.headers?.origin || event.headers?.Origin] with [event = {}] by
    default. *)
Definition origin_of (ev : option event) : option string :=
  match ev with
  | None => None
  | Some e =>
      if truthy (headers e !! "origin") then headers e !! "origin"
      else if truthy (headers e !! "Origin") then headers e !! "Origin"
      else None
  end.

Record t : Type := Make {
  statusCode : nat;
  headers : list (string * json);
  body : envelope;
}.

Definition response (code : nat) (b : envelope) (ev : option event) : t :=
  Make code (getCorsHeaders (origin_of ev)) b.

Definition success (data : payload) ev := response 200 (Success data) ev.
Definition created (data : payload) ev := response 201 (Success data) ev.
Definition badRequest (message : string) ev := response 400 (Failure message) ev.
Definition unauthorized (message : string) ev := response 401 (Failure message) ev.
Definition forbidden (message : string) ev := response 403 (Failure message) ev.
Definition notFound (message : string) ev := response 404 (Failure message) ev.
Definition serverError (message : string) ev := response 500 (Failure message) ev.

End Response.

(** The [try { ... } catch (error) { return serverError(...) }] that wraps
    every handler body. *)
Definition try_catch (m : js Response.t) (ev : option event)
    (w : World) : Response.t * World :=
  match m w with
  | (Normal r, w') => (r, w')
  | (Throw _, w') => (Response.serverError "Internal server error" ev, w')
  end.

(** ** Joi schemas, as far as the handlers use them

    Validation runs with Joi's defaults: it stops at the first error, keys
    that the schema does not name are not allowed, a string may not be empty.
    Joi's coercion of numeric strings is not modelled: a number is a JSON
    number. *)

Module Joi.

Inductive presence : Type := optional | required.

Inductive string_rule : Type :=
| email_
| uri_
| min_length (limit : nat)
| max_length (limit : nat)
| pattern (regex : string → bool) (message : string).

Inductive number_rule : Type :=
| positive_
| integer_
| min_ (limit : Z).

Inductive schema : Type :=
| string_ (rules : list string_rule)
| number_ (rules : list number_rule)
| array_ (items : schema) (min_items : nat)
| object_ (keys : list (string * presence * schema)).

Inductive error_type : Type :=
| any_required
| object_base
| object_unknown
| array_base
| array_min (limit : nat)
| string_base
| string_empty
| string_email
| string_uri
| string_min (limit : nat)
| string_max (limit : nat)
| string_custom (message : string)
| number_base
| number_positive
| number_integer
| number_min (limit : Z).

Record ValidationError : Type := Error {
  label : string;
  type : error_type;
}.

Definition quote : string := String (Ascii.ascii_of_nat 34) EmptyString.

(** [error.details[0].message] *)
Definition message (e : ValidationError) : string :=
  let l := quote +:+ label e +:+ quote in
  match type e with
  | any_required => l +:+ " is required"
  | object_base => l +:+ " must be of type object"
  | object_unknown => l +:+ " is not allowed"
  | array_base => l +:+ " must be an array"
  | array_min n => l +:+ " must contain at least " +:+ pretty n +:+ " items"
  | string_base => l +:+ " must be a string"
  | string_empty => l +:+ " is not allowed to be empty"
  | string_email => l +:+ " must be a valid email"
  | string_uri => l +:+ " must be a valid uri"
  | string_min n =>
      l +:+ " length must be at least " +:+ pretty n +:+ " characters long"
  | string_max n =>
      l +:+ " length must be less than or equal to " +:+ pretty n
        +:+ " characters long"
  | string_custom m => m
  | number_base => l +:+ " must be a number"
  | number_positive => l +:+ " must be a positive number"
  | number_integer => l +:+ " must be an integer"
  | number_min n => l +:+ " must be greater than or equal to " +:+ pretty n
  end.

Definition label_of (path : string) : string :=
  if String.eqb path "" then "value" else path.

Definition child (path k : string) : string :=
  if String.eqb path "" then k else path +:+ "." +:+ k.

Definition element (path : string) (i : nat) : string :=
  path +:+ "[" +:+ pretty i +:+ "]".

Definition is_integer (n : Qc) : bool :=
  Pos.eqb (Qden (this n)) 1.

Definition check_string_rule (env : Env) (r : string_rule) (s : string)
    : option error_type :=
  match r with
  | email_ => if is_email env s then None else Some string_email
  | uri_ => if is_uri env s then None else Some string_uri
  | min_length n =>
      if Nat.leb n (String.length s) then None else Some (string_min n)
  | max_length n =>
      if Nat.leb (String.length s) n then None else Some (string_max n)
  | pattern re m => if re s then None else Some (string_custom m)
  end.

Definition check_number_rule (r : number_rule) (n : Qc) : option error_type :=
  match r with
  | positive_ => if bool_decide (0 < n)%Qc then None else Some number_positive
  | integer_ => if is_integer n then None else Some number_integer
  | min_ l =>
      if bool_decide (Qc_of_Z l ≤ n)%Qc then None else Some (number_min l)
  end.

(** The first rule that fails, in the order the rules were chained. *)
Fixpoint first_failure {R V} (check : R → V → option error_type)
    (rules : list R) (v : V) : option error_type :=
  match rules with
  | [] => None
  | r :: rules' =>
      match check r v with
      | Some e => Some e
      | None => first_failure check rules' v
      end
  end.

Definition unknown_keys (keys : list (string * presence * schema))
    (o : list (string * json)) : list string :=
  filter (λ k, k ∉ map (λ c, c.1.1) keys) (map fst o).

(** The first error among the elements of a list, numbered from [i]. *)
Fixpoint first_error {A} (f : nat → A → option ValidationError)
    (i : nat) (l : list A) : option ValidationError :=
  match l with
  | [] => None
  | x :: l' =>
      match f i x with
      | Some e => Some e
      | None => first_error f (S i) l'
      end
  end.

Fixpoint validate_at (env : Env) (s : schema) (path : string) (v : json)
    {struct s} : option ValidationError :=
  match s with
  | string_ rules =>
      match v with
      | JStr x =>
          if String.eqb x "" then Some (Error (label_of path) string_empty)
          else option_map (Error (label_of path))
                 (first_failure (check_string_rule env) rules x)
      | _ => Some (Error (label_of path) string_base)
      end
  | number_ rules =>
      match v with
      | JNum n =>
          option_map (Error (label_of path))
            (first_failure check_number_rule rules n)
      | _ => Some (Error (label_of path) number_base)
      end
  | array_ items min_items =>
      match v with
      | JArr l =>
          match first_error
                  (λ i x, validate_at env items (element path i) x) 0 l with
          | Some e => Some e
          | None =>
              if Nat.leb min_items (length l) then None
              else Some (Error (label_of path) (array_min min_items))
          end
      | _ => Some (Error (label_of path) array_base)
      end
  | object_ keys =>
      match v with
      | JObj o =>
          match first_error
                  (λ _ (c : string * presence * schema),
                     match obj_get c.1.1 o with
                     | None =>
                         match c.1.2 with
                         | required =>
                             Some (Error (child path c.1.1) any_required)
                         | optional => None
                         end
                     | Some x => validate_at env c.2 (child path c.1.1) x
                     end) 0 keys with
          | Some e => Some e
          | None =>
              match unknown_keys keys o with
              | [] => None
              | k :: _ => Some (Error (child path k) object_unknown)
              end
          end
      | _ => Some (Error (label_of path) object_base)
      end
  end.

(** [schema.validate(value).error] *)
Definition validate (env : Env) (s : schema) (v : json)
    : option ValidationError :=
  validate_at env s "" v.

End Joi.

(** ** src/services/dynamodb.js over a table keyed by (id, type) *)

Module Dynamo.

(** The key attributes of an item; DynamoDB rejects an item without them. *)
Definition key_of (i : item) : option (string * string) :=
  match i !! "id", i !! "type" with
  | Some (JStr a), Some (JStr b) => Some (a, b)
  | _, _ => None
  end.

Definition is_key_attribute (a : string) : bool :=
  String.eqb a "id" || String.eqb a "type".

Definition put (i : item) : js unit :=
  λ w, match key_of i with
       | Some k => (Normal (), MkWorld (<[k := i]> (table w)) (ticks w) (draws w))
       | None => (Throw "ValidationException", w)
       end.

(** [result.Item]: [None] is [undefined]. *)
Definition get (key : string * string) : js (option item) :=
  λ w, (Normal (table w !! key), w).

Definition remove (key : string * string) : js unit :=
  λ w, (Normal (), MkWorld (delete key (table w)) (ticks w) (draws w)).

(** A path of the update expression: a [#name] placeholder is looked up in
    ExpressionAttributeNames, anything else names the attribute itself. *)
Definition resolve_name (names : gmap string string) (tok : string)
    : option string :=
  if String.prefix "#" tok then names !! tok else Some tok.

Definition resolve (names : gmap string string) (values : gmap string json)
    (assignment : string * string) : option (string * json) :=
  match resolve_name names assignment.1, values !! assignment.2 with
  | Some a, Some x => Some (a, x)
  | _, _ => None
  end.

(** [update(key, "SET p1 = v1, p2 = v2, ...", values, names)] with
    [ReturnValues: 'ALL_NEW'].  The SET clause is kept in parsed form, one
    (path, operand) pair per assignment.  DynamoDB rejects the request when
    a placeholder is undefined, when a key attribute is assigned, or when
    two assignments name the same attribute; otherwise it creates the item
    if it is missing, assigns the attributes and returns the new item. *)
Definition update (key : string * string)
    (updateExpression : list (string * string))
    (expressionAttributeValues : gmap string json)
    (expressionAttributeNames : gmap string string) : js item :=
  λ w, match mapM (resolve expressionAttributeNames expressionAttributeValues)
               updateExpression with
       | None => (Throw "ValidationException", w)
       | Some sets =>
           if existsb is_key_attribute (map fst sets)
           then (Throw "ValidationException", w)
           else if bool_decide (NoDup (map fst sets)) then
             let old := default {[ "id" := JStr key.1; "type" := JStr key.2 ]}
                          (table w !! key) in
             let new := foldl (λ acc (s : string * json), <[s.1 := s.2]> acc) old sets in
             (Normal new, MkWorld (<[key := new]> (table w)) (ticks w) (draws w))
           else (Throw "ValidationException", w)
       end.

(** [=] between an attribute and an operand of a filter: scalars by value,
    lists element by element, maps key by key. *)
Fixpoint attribute_eqb (a b : json) {struct a} : bool :=
  match a, b with
  | JNull, JNull => true
  | JBool x, JBool y => Bool.eqb x y
  | JNum x, JNum y => bool_decide (x = y)
  | JStr x, JStr y => String.eqb x y
  | JArr l, JArr m =>
      (fix elements (l m : list json) : bool :=
         match l, m with
         | [], [] => true
         | x :: l', y :: m' => attribute_eqb x y && elements l' m'
         | _, _ => false
         end) l m
  | JObj o, JObj p =>
      Nat.eqb (length o) (length p)
      && forallb (λ kv : string * json,
                    match obj_get kv.1 p with
                    | Some y => attribute_eqb kv.2 y
                    | None => false
                    end) o
  | _, _ => false
  end.

(** [scan("p1 = v1 AND p2 = v2 ...", values)], one page, with the filter kept
    in parsed form, one (path, operand) pair per comparison; [None] is the
    call without a filter.  The function has no parameter for
    ExpressionAttributeNames and sends none, so a [#name] path in the filter
    is an undefined placeholder, which DynamoDB rejects. *)
Definition scan (filterExpression : option (list (string * string)))
    (expressionAttributeValues : gmap string json) : js (list item) :=
  λ w, match filterExpression with
       | None => (Normal (map snd (map_to_list (table w))), w)
       | Some comparisons =>
           match mapM (resolve ∅ expressionAttributeValues) comparisons with
           | None => (Throw "ValidationException", w)
           | Some tests =>
               (Normal
                  (filter (λ i : item,
                             forallb (λ t : string * json,
                                        match i !! t.1 with
                                        | Some x => attribute_eqb x t.2
                                        | None => false
                                        end) tests = true)
                          (map snd (map_to_list (table w)))), w)
           end
       end.

End Dynamo.

(** ** src/utils/auth.js *)

Module Auth.

Definition verifyToken (env : Env) (token : string) : option claims :=
  match JWT_SECRET env with
  | Some secret =>
      if String.eqb secret "" then None else jwt_verify env token secret
  | None => None
  end.

(** [event.headers.Authorization || event.headers.authorization], with a
    falsy result read as [None]. *)
Definition authHeader (ev : event) : option string :=
  if truthy (headers ev !! "Authorization") then headers ev !! "Authorization"
  else if truthy (headers ev !! "authorization") then headers ev !! "authorization"
  else None.

Inductive result : Type :=
| Valid (user : claims)
| Invalid (response : Response.t).

Definition authenticateToken (env : Env) (ev : event) : result :=
  match authHeader ev with
  | None => Invalid (Response.unauthorized "Authorization header required" None)
  | Some h =>
      if negb (startsWith h "Bearer ") then
        Invalid (Response.unauthorized
                   "Invalid authorization format. Use: Bearer <token>" None)
      else
        let token := substring_from 7 h in
        match verifyToken env token with
        | None => Invalid (Response.unauthorized "Invalid or expired token" None)
        | Some decoded => Valid decoded
        end
  end.

End Auth.

(** The key of a [get], [update] or [remove]; the document client throws on
    an undefined path parameter. *)
Definition key_for (id : option string) (type : string) : js (string * string) :=
  match id with
  | Some i => ret (i, type)
  | None => throw "Error"
  end.

(** ** src/handlers/products.js *)

Module Products.
Import Joi.

Definition productSchema : schema :=
  object_
    [ ("name", required, string_ []);
      ("description", optional, string_ []);
      ("price", required, number_ [positive_]);
      ("category", required, string_ []);
      ("stock", required, number_ [integer_; min_ 0]);
      ("imageUrl", optional, string_ [uri_]) ].

Definition updateProductSchema : schema :=
  object_
    [ ("name", optional, string_ []);
      ("description", optional, string_ []);
      ("price", optional, number_ [positive_]);
      ("category", optional, string_ []);
      ("stock", optional, number_ [integer_; min_ 0]);
      ("imageUrl", optional, string_ [uri_]) ].

(** The own properties of a value, in [Object.keys] order.  Only objects
    pass validation, so only objects are enumerated. *)
Definition entries (v : json) : list (string * json) :=
  match v with
  | JObj o => o
  | _ => []
  end.

Definition create (env : Env) (ev : event) : World → Response.t * World :=
  try_catch
    (match Auth.authenticateToken env ev with
     | Auth.Invalid response => ret response
     | Auth.Valid _ =>
         let* productData := JSON_parse (body ev) in
         match validate env productSchema productData with
         | Some error => ret (Response.badRequest (message error) None)
         | None =>
             let* productId := fresh_uuid env in
             let* createdAt := now env in
             let* updatedAt := now env in
             let product : item :=
               <["updatedAt" := JStr updatedAt]>
                 (<["createdAt" := JStr createdAt]>
                    (spread (<["type" := JStr "product"]>
                               {[ "id" := JStr productId ]})
                            (entries productData))) in
             Dynamo.put product ;;;
             ret (Response.created (Response.Record_ product) None)
         end
     end) None.

Definition getById (env : Env) (ev : event) : World → Response.t * World :=
  try_catch
    (let* key := key_for (pathParameters ev !! "id") "product" in
     let* product := Dynamo.get key in
     match product with
     | None => ret (Response.notFound "Product not found" None)
     | Some p => ret (Response.success (Response.Record_ p) None)
     end) None.

(** The three accumulators of the update-expression builder. *)
Record builder : Type := Builder {
  updateExpressions : list (string * string);
  expressionAttributeValues : gmap string json;
  expressionAttributeNames : gmap string string;
}.

(** One round of [Object.keys(updateData).forEach((key, index) => ...)]. *)
Definition assign (b : builder) (key : string) (value : json) (index : nat)
    : builder :=
  let attributeName := "#attr" +:+ pretty index in
  let attributeValue := ":val" +:+ pretty index in
  Builder (updateExpressions b ++ [(attributeName, attributeValue)])
          (<[attributeValue := value]> (expressionAttributeValues b))
          (<[attributeName := key]> (expressionAttributeNames b)).

Fixpoint forEach (updateData : list (string * json)) (index : nat)
    (b : builder) : builder :=
  match updateData with
  | [] => b
  | (key, value) :: rest => forEach rest (S index) (assign b key value index)
  end.

Definition stamp (b : builder) (updatedAt : string) : builder :=
  Builder (updateExpressions b ++ [("#updatedAt", ":updatedAt")])
          (<[":updatedAt" := JStr updatedAt]> (expressionAttributeValues b))
          (<["#updatedAt" := "updatedAt"]> (expressionAttributeNames b)).

Definition update (env : Env) (ev : event) : World → Response.t * World :=
  try_catch
    (match Auth.authenticateToken env ev with
     | Auth.Invalid response => ret response
     | Auth.Valid _ =>
         let id := pathParameters ev !! "id" in
         let* updateData := JSON_parse (body ev) in
         match validate env updateProductSchema updateData with
         | Some error => ret (Response.badRequest (message error) None)
         | None =>
             let* key := key_for id "product" in
             let* existingProduct := Dynamo.get key in
             match existingProduct with
             | None => ret (Response.notFound "Product not found" None)
             | Some _ =>
                 let b := forEach (entries updateData) 0 (Builder [] ∅ ∅) in
                 let* updatedAt := now env in
                 let b := stamp b updatedAt in
                 let* updatedProduct :=
                   Dynamo.update key (updateExpressions b)
                     (expressionAttributeValues b)
                     (expressionAttributeNames b) in
                 ret (Response.success (Response.Record_ updatedProduct) None)
             end
         end
     end) None.

Definition delete (env : Env) (ev : event) : World → Response.t * World :=
  try_catch
    (match Auth.authenticateToken env ev with
     | Auth.Invalid response => ret response
     | Auth.Valid _ =>
         let* key := key_for (pathParameters ev !! "id") "product" in
         let* existingProduct := Dynamo.get key in
         match existingProduct with
         | None => ret (Response.notFound "Product not found" None)
         | Some _ =>
             Dynamo.remove key ;;;
             ret (Response.success
                    (Response.Message "Product deleted successfully") None)
         end
     end) None.

(** A list of items as the data of a response. *)
Definition listing (items : list item) : Response.payload :=
  Response.Value (JArr (map (λ i : item, JObj (map_to_list i)) items)).

Definition getAll (env : Env) (ev : event) : World → Response.t * World :=
  try_catch
    (let* products :=
       Dynamo.scan (Some [("#type", ":type")]) {[ ":type" := JStr "product" ]} in
     ret (Response.success (listing products) None)) None.

End Products.

(** ** src/handlers/orders.js *)

Module Orders.
Import Joi.

Definition orderItemSchema : schema :=
  object_
    [ ("productId", required, string_ []);
      ("quantity", required, number_ [integer_; min_ 1]);
      ("price", required, number_ [positive_]) ].

Definition orderSchema : schema :=
  object_
    [ ("items", required, array_ orderItemSchema 1);
      ("shippingAddress", required,
       object_
         [ ("street", required, string_ []);
           ("city", required, string_ []);
           ("state", required, string_ []);
           ("zipCode", required, string_ []);
           ("country", required, string_ []) ]) ].

(** [jwt.verify] throws without a secret, and the [catch] returns null. *)
Definition verifyToken (env : Env) (token : string) : option claims :=
  match JWT_SECRET env with
  | Some secret =>
      if String.eqb secret "" then None else jwt_verify env token secret
  | None => None
  end.

(** The guard that opens each order handler: the header, then the token
    that is left once the first ["Bearer "] is cut out of it. *)
Definition authorize (env : Env) (ev : event) : Response.t + claims :=
  match Auth.authHeader ev with
  | None => inl (Response.unauthorized "Authorization header required" None)
  | Some authHeader =>
      let token := replace "Bearer " "" authHeader in
      match verifyToken env token with
      | None => inl (Response.unauthorized "Invalid token" None)
      | Some decoded => inr decoded
      end
  end.

(** A JavaScript number read off a JSON value; [None] stands for a value
    that validation never lets through to arithmetic. *)
Definition to_number (v : option json) : option Qc :=
  match v with
  | Some (JNum n) => Some n
  | _ => None
  end.

Definition mul (a b : option Qc) : option Qc :=
  match a, b with
  | Some x, Some y => Some (x * y)%Qc
  | _, _ => None
  end.

Definition add (a b : option Qc) : option Qc :=
  match a, b with
  | Some x, Some y => Some (x + y)%Qc
  | _, _ => None
  end.

(** [items.reduce((sum, item) => sum + (item.price * item.quantity), 0)] *)
Definition totalAmount (items : list json) : option Qc :=
  foldl (λ sum item,
           add sum (mul (to_number (prop "price" item))
                        (to_number (prop "quantity" item))))
        (Some 0%Qc) items.

Definition create (env : Env) (ev : event) : World → Response.t * World :=
  try_catch
    (match authorize env ev with
     | inl response => ret response
     | inr decoded =>
         let* orderData := JSON_parse (body ev) in
         match validate env orderSchema orderData with
         | Some error => ret (Response.badRequest (message error) None)
         | None =>
             let* orderId := fresh_uuid env in
             let* items :=
               match prop "items" orderData with
               | Some (JArr l) => ret l
               | _ => throw "TypeError"
               end in
             let total := totalAmount items in
             let* createdAt := now env in
             let* updatedAt := now env in
             let* shippingAddress :=
               match prop "shippingAddress" orderData with
               | Some a => ret a
               | None => throw "Error"
               end in
             let* total :=
               match total with
               | Some n => ret (JNum n)
               | None => throw "Error"
               end in
             let order : item :=
               list_to_map
                 [ ("id", JStr orderId);
                   ("type", JStr "order");
                   ("userId", JStr (userId decoded));
                   ("userEmail", JStr (email decoded));
                   ("items", JArr items);
                   ("shippingAddress", shippingAddress);
                   ("totalAmount", total);
                   ("status", JStr "pending");
                   ("createdAt", JStr createdAt);
                   ("updatedAt", JStr updatedAt) ] in
             Dynamo.put order ;;;
             ret (Response.created (Response.Record_ order) None)
         end
     end) None.

(** [order.userId !== decoded.userId] *)
Definition not_owner (order : item) (decoded : claims) : bool :=
  match order !! "userId" with
  | Some (JStr u) => negb (String.eqb u (userId decoded))
  | _ => true
  end.

Definition getById (env : Env) (ev : event) : World → Response.t * World :=
  try_catch
    (match authorize env ev with
     | inl response => ret response
     | inr decoded =>
         let* key := key_for (pathParameters ev !! "id") "order" in
         let* order := Dynamo.get key in
         match order with
         | None => ret (Response.notFound "Order not found" None)
         | Some o =>
             if not_owner o decoded
             then ret (Response.unauthorized "Access denied" None)
             else ret (Response.success (Response.Record_ o) None)
         end
     end) None.

Definition getAll (env : Env) (ev : event) : World → Response.t * World :=
  try_catch
    (match authorize env ev with
     | inl response => ret response
     | inr decoded =>
         let* orders :=
           Dynamo.scan (Some [("#type", ":type"); ("userId", ":userId")])
             (<[":userId" := JStr (userId decoded)]>
                {[ ":type" := JStr "order" ]}) in
         ret (Response.success (Products.listing orders) None)
     end) None.

End Orders.

(** ** src/handlers/auth.js *)

Module AuthHandlers.
Import Joi.

Definition in_range (lo hi : nat) (c : Ascii.ascii) : bool :=
  let n := Ascii.nat_of_ascii c in Nat.leb lo n && Nat.leb n hi.

(** The part of the string that [.*] can run over from its start: up to the
    first line terminator. *)
Fixpoint first_line (s : string) : list Ascii.ascii :=
  match s with
  | EmptyString => []
  | String c s' =>
      if Nat.eqb (Ascii.nat_of_ascii c) 10 || Nat.eqb (Ascii.nat_of_ascii c) 13 then []
      else c :: first_line s'
  end.

(** [^(?=.*[a-z])(?=.*[A-Z])(?=.*[0-9])(?=.*[!@#$%^&*])] *)
Definition password_pattern (s : string) : bool :=
  let l := first_line s in
  existsb (in_range 97 122) l
  && existsb (in_range 65 90) l
  && existsb (in_range 48 57) l
  && existsb (λ c, existsb (Ascii.eqb c) (String.list_ascii_of_string "!@#$%^&*")) l.

Definition registerSchema : schema :=
  object_
    [ ("email", required, string_ [email_]);
      ("password", required,
       string_
         [ min_length 8;
           pattern password_pattern
             "Password must be at least 8 characters long and contain at least one lowercase letter, one uppercase letter, one number, and one special character" ]);
      ("name", required, string_ [min_length 2; max_length 50]) ].

Definition loginSchema : schema :=
  object_
    [ ("email", required, string_ [email_]);
      ("password", required, string_ []) ].

(** [const { k1, k2, ... } = value]: destructuring null throws; what comes
    back reads the named properties. *)
Definition destructure (v : json) : js (string → option json) :=
  match v with
  | JNull => throw "TypeError"
  | _ => ret (λ k, prop k v)
  end.

(** An object literal: an undefined property is left out, by Joi and by
    [JSON.stringify] alike. *)
Definition literal (fields : list (string * option json)) : json :=
  JObj (omap (λ f, match f.2 with Some v => Some (f.1, v) | None => None end)
             fields).

(** [jwt.sign(payload, process.env.JWT_SECRET, { expiresIn: '24h' })]; it
    throws without a secret. *)
Definition sign (env : Env) (payload : claims) : js string :=
  match JWT_SECRET env with
  | Some secret =>
      if String.eqb secret "" then throw "Error"
      else ret (jwt_sign env payload secret)
  | None => throw "Error"
  end.

(** [{ token, user: { userId, email, name } }] *)
Definition session (token : string) (c : claims) (name : option json)
    : Response.payload :=
  Response.Value
    (literal [ ("token", Some (JStr token));
               ("user", Some (literal [ ("userId", Some (JStr (userId c)));
                                        ("email", Some (JStr (email c)));
                                        ("name", name) ])) ]).

Definition register (env : Env) (ev : event) : World → Response.t * World :=
  try_catch
    (let* value := JSON_parse (body ev) in
     let* field := destructure value in
     let email := field "email" in
     let password := field "password" in
     let name := field "name" in
     match validate env registerSchema
             (literal [("email", email); ("password", password); ("name", name)])
     with
     | Some error => ret (Response.badRequest (message error) (Some ev))
     | None =>
         match email, password, name with
         | Some (JStr email), Some (JStr password), Some (JStr name) =>
             let* existingUser := Dynamo.get (email, "user") in
             match existingUser with
             | Some _ =>
                 ret (Response.badRequest "User already exists" (Some ev))
             | None =>
                 let hashedPassword := bcrypt_hash env password in
                 let* userId := fresh_uuid env in
                 let* createdAt := now env in
                 let user : item :=
                   list_to_map
                     [ ("id", JStr email);
                       ("type", JStr "user");
                       ("userId", JStr userId);
                       ("name", JStr name);
                       ("password", JStr hashedPassword);
                       ("createdAt", JStr createdAt) ] in
                 Dynamo.put user ;;;
                 let* token := sign env (Claims userId email) in
                 ret (Response.created
                        (session token (Claims userId email) (Some (JStr name)))
                        (Some ev))
             end
         | _, _, _ => throw "TypeError"
         end
     end) (Some ev).

(** The stored hash must be a string: [bcrypt.compare] throws on anything
    else. *)
Definition compare (env : Env) (password : string) (hash : option json)
    : js bool :=
  match hash with
  | Some (JStr h) => ret (bcrypt_compare env password h)
  | _ => throw "Error"
  end.

Definition login (env : Env) (ev : event) : World → Response.t * World :=
  try_catch
    (let* value := JSON_parse (body ev) in
     let* field := destructure value in
     let email := field "email" in
     let password := field "password" in
     match validate env loginSchema
             (literal [("email", email); ("password", password)])
     with
     | Some error => ret (Response.badRequest (message error) (Some ev))
     | None =>
         match email, password with
         | Some (JStr email), Some (JStr password) =>
             let* user := Dynamo.get (email, "user") in
             match user with
             | None =>
                 ret (Response.unauthorized "Invalid credentials" (Some ev))
             | Some user =>
                 let* isValidPassword :=
                   compare env password (user !! "password") in
                 if negb isValidPassword then
                   ret (Response.unauthorized "Invalid credentials" (Some ev))
                 else
                   (* register writes userId and id as strings *)
                   match user !! "userId", user !! "id" with
                   | Some (JStr userId), Some (JStr id) =>
                       let* token := sign env (Claims userId id) in
                       ret (Response.success
                              (session token (Claims userId id) (user !! "name"))
                              (Some ev))
                   | _, _ => throw "TypeError"
                   end
             end
         | _, _ => throw "TypeError"
         end
     end) (Some ev).

End AuthHandlers.

(** ** What the specification says of an order's total

    An order line is an item of the request read as (price, quantity): a
    positive price and a whole quantity of at least one. *)

Definition is_line (item : json) (line : Qc * Qc) : Prop :=
  prop "price" item = Some (JNum line.1)
  ∧ prop "quantity" item = Some (JNum line.2)
  ∧ (0 < line.1)%Qc
  ∧ (Qc_of_Z 1 ≤ line.2)%Qc
  ∧ Joi.is_integer line.2 = true.

(** The sum over the lines of price times quantity. *)
Fixpoint sigma (lines : list (Qc * Qc)) : Qc :=
  match lines with
  | [] => 0%Qc
  | line :: lines' => (line.1 * line.2 + sigma lines')%Qc
  end.

(** The six attributes a product may be created or updated with. *)
Definition product_fields : list string :=
  ["name"; "description"; "price"; "category"; "stock"; "imageUrl"].

(** ** What the handlers of src/handlers/auth.js hand to validation *)

(** [{ email, password, name }] as [register] takes it out of the body. *)
Definition register_input (v : json) : json :=
  AuthHandlers.literal
    [("email", prop "email" v); ("password", prop "password" v);
     ("name", prop "name" v)].

(** [{ email, password }] as [login] takes it out of the body. *)
Definition login_input (v : json) : json :=
  AuthHandlers.literal
    [("email", prop "email" v); ("password", prop "password" v)].

(** A login request that is well-formed: its body parses to a value that
    carries the email and the password as strings and passes [loginSchema]. *)
Definition login_request (env : Env) (ev : event) (e p : string) : Prop :=
  ∃ v, body ev = Parsed v
       ∧ v ≠ JNull
       ∧ prop "email" v = Some (JStr e)
       ∧ prop "password" v = Some (JStr p)
       ∧ Joi.validate env AuthHandlers.loginSchema (login_input v) = None.

(** ** A concrete environment and concrete requests

    Two users hold the tokens ["tokA"] and ["tokB"]; identifiers and
    timestamps are numbered. *)

Module Demo.

Definition alice : claims := Claims "user-A" "a@x.com".
Definition bob : claims := Claims "user-B" "b@x.com".

Definition env : Env := {|
  JWT_SECRET := Some "s3cret";
  jwt_verify := λ token secret,
    if String.eqb secret "s3cret" then
      if String.eqb token "tokA" then Some alice
      else if String.eqb token "tokB" then Some bob
      else None
    else None;
  jwt_sign := λ c secret, "jwt:" +:+ userId c;
  bcrypt_hash := λ password, "bcrypt:" +:+ password;
  bcrypt_compare := λ password hash, String.eqb hash ("bcrypt:" +:+ password);
  uuidv4 := λ n, "uuid-" +:+ pretty n;
  toISOString := λ n, "2024-01-01T00:00:0" +:+ pretty n +:+ "Z";
  is_email := λ s, existsb (Ascii.eqb (Ascii.ascii_of_nat 64)) (String.list_ascii_of_string s);
  is_uri := λ s, String.prefix "http" s;
|}.

Definition bearer (token : string) : gmap string string :=
  {[ "Authorization" := "Bearer " +:+ token ]}.

Definition num (z : Z) : json := JNum (Qc_of_Z z).

Definition pen : item :=
  list_to_map
    [ ("id", JStr "p1"); ("type", JStr "product"); ("name", JStr "Pen");
      ("price", JNum (Q2Qc (Qmake 3 2))); ("category", JStr "office");
      ("stock", num 10); ("createdAt", JStr "2023-12-31T00:00:00Z");
      ("updatedAt", JStr "2023-12-31T00:00:00Z") ].

Definition ann : item :=
  list_to_map
    [ ("id", JStr "a@x.com"); ("type", JStr "user");
      ("userId", JStr "user-A"); ("name", JStr "Ann");
      ("password", JStr "bcrypt:Abc12345!");
      ("createdAt", JStr "2023-12-31T00:00:00Z") ].

Definition order1 : item :=
  list_to_map
    [ ("id", JStr "o1"); ("type", JStr "order"); ("userId", JStr "user-A");
      ("userEmail", JStr "a@x.com"); ("status", JStr "pending") ].

Definition world : World :=
  MkWorld (<[("o1", "order") := order1]>
             (<[("a@x.com", "user") := ann]>
                {[ ("p1", "product") := pen ]})) 0 0.

Definition address : json :=
  JObj [ ("street", JStr "1 Main St"); ("city", JStr "Springfield");
         ("state", JStr "IL"); ("zipCode", JStr "62701");
         ("country", JStr "US") ].

Definition line (productId : string) (quantity : Z) (price : Q) : json :=
  JObj [ ("productId", JStr productId); ("quantity", num quantity);
         ("price", JNum (Q2Qc price)) ].

Definition order_body : json :=
  JObj [ ("items", JArr [ line "p1" 2 (Qmake 3 2); line "p2" 1 (Qmake 10 1) ]);
         ("shippingAddress", address) ].

Definition post_order : event :=
  Event (bearer "tokA") ∅ (Parsed order_body).

Definition product_body : json :=
  JObj [ ("name", JStr "Pen"); ("price", JNum (Q2Qc (Qmake 3 2)));
         ("category", JStr "office"); ("stock", num 10) ].

Definition post_product : event :=
  Event (bearer "tokA") ∅ (Parsed product_body).


Definition delete_pen : event :=
  Event (bearer "tokA") {[ "id" := "p1" ]} SyntaxError.

Definition get_order (headers : gmap string string) : event :=
  Event headers {[ "id" := "o1" ]} SyntaxError.

Definition login_as (email password : string) : event :=
  Event ∅ ∅ (Parsed (JObj [ ("email", JStr email); ("password", JStr password) ])).

(** The same environment with no JWT_SECRET configured. *)
Definition unconfigured : Env := {|
  JWT_SECRET := None;
  jwt_verify := jwt_verify env;
  jwt_sign := jwt_sign env;
  bcrypt_hash := bcrypt_hash env;
  bcrypt_compare := bcrypt_compare env;
  uuidv4 := uuidv4 env;
  toISOString := toISOString env;
  is_email := is_email env;
  is_uri := is_uri env;
|}.

Definition get_product (id : string) : event :=
  Event ∅ {[ "id" := id ]} SyntaxError.

Definition register_as (email password name : string) : event :=
  Event ∅ ∅
    (Parsed (JObj [ ("email", JStr email); ("password", JStr password);
                    ("name", JStr name) ])).

End Demo.

(** ** What the update-expression builder owes the store

    Every assignment of the expression resolves, through the two placeholder
    maps, to the attribute and the value listed at its place in [sets]. *)

Definition resolves (b : Products.builder) (sets : list (string * json)) : Prop :=
  Forall2 (λ e x, Dynamo.resolve (Products.expressionAttributeNames b)
                    (Products.expressionAttributeValues b) e = Some x)
          (Products.updateExpressions b) sets.

(** ** Proof automation

    [children H] takes the statement about the children of an object schema
    apart, one hypothesis per key of the schema. *)
Ltac children H :=
  repeat match type of H with
         | Forall _ (_ :: _) =>
             let Hc := fresh "Hchild" in
             apply Forall_cons_1 in H as [Hc H]; cbn [fst snd] in Hc
         end.

(** ** The record a product create builds

    [{ id, type: 'product', ...productData, createdAt, updatedAt }] for the
    entries [o] of the body, with the identifier and the two clock readings
    the request draws in world [w]. *)

Definition new_product (env : Env) (w : World) (o : list (string * json)) : item :=
  <["updatedAt" := JStr (toISOString env (S (ticks w)))]>
    (<["createdAt" := JStr (toISOString env (ticks w))]>
       (spread (<["type" := JStr "product"]>
                  {[ "id" := JStr (uuidv4 env (draws w)) ]}) o)).

(** An assignment of an update expression that is written with placeholders
    only: a [#name] set to a [:value]. *)
Definition placeholders (e : string * string) : Prop :=
  String.prefix "#" e.1 = true ∧ String.prefix ":" e.2 = true.

(** ** The record a registration builds

    [{ id: email, type: 'user', userId, name, password: hashedPassword,
    createdAt }] with the identifier and the clock reading the request draws
    in world [w]. *)

Definition new_user (env : Env) (w : World) (email password name : string) : item :=
  list_to_map
    [ ("id", JStr email);
      ("type", JStr "user");
      ("userId", JStr (uuidv4 env (draws w)));
      ("name", JStr name);
      ("password", JStr (bcrypt_hash env password));
      ("createdAt", JStr (toISOString env (ticks w))) ].

(** A string that has a character of a given class. *)
Definition contains (class : Ascii.ascii → bool) (s : string) : Prop :=
  ∃ c, c ∈ String.list_ascii_of_string s ∧ class c = true.

(** The symbols the password pattern asks for. *)
Definition is_symbol (c : Ascii.ascii) : bool :=
  existsb (Ascii.eqb c) (String.list_ascii_of_string "!@#$%^&*").


(** A computation that leaves the world as it finds it, whether it returns
    or throws. *)
Definition preserves {A} (m : js A) : Prop := ∀ w, (m w).2 = w.

(** * Properties *)

(** ** Validation *)

Lemma obj_get_keys k o : obj_get k o ≠ None → k ∈ map fst o.
Proof.
  induction o as [|[k' v'] o IH]; simpl; [done|].
  destruct (String.eqb_spec k k') as [->|_]; intros Hk.
  - apply elem_of_cons. by left.
  - apply elem_of_cons. right. by apply IH.
Qed.

Lemma obj_get_None k o : k ∉ map fst o → obj_get k o = None.
Proof.
  intros Hk. destruct (obj_get k o) eqn:Hget; [|done].
  destruct Hk. apply obj_get_keys. by rewrite Hget.
Qed.

Section Validation.
Context (env : Env).

Lemma first_error_None {A} (f : nat → A → option Joi.ValidationError) l i x :
  Joi.first_error f i l = None → x ∈ l → ∃ j, f j x = None.
Proof.
  revert i. induction l as [|y l IH]; intros i Hnone Hin.
  - by apply elem_of_nil in Hin.
  - simpl in Hnone. destruct (f i y) eqn:Hy; [done|].
    apply elem_of_cons in Hin as [->|Hin]; eauto.
Qed.

Lemma unknown_keys_nil keys o k :
  Joi.unknown_keys keys o = [] → k ∈ map fst o →
  k ∈ map (λ c : string * Joi.presence * Joi.schema, c.1.1) keys.
Proof.
  unfold Joi.unknown_keys. intros Hnil Hin.
  destruct (decide (k ∈ map (λ c : string * Joi.presence * Joi.schema, c.1.1) keys))
    as [|Hout]; [done|].
  assert (k ∈ filter (λ k, k ∉ map (λ c : string * Joi.presence * Joi.schema, c.1.1) keys)
                (map fst o)) as Hk by (by apply list_elem_of_filter).
  rewrite Hnil in Hk. by apply elem_of_nil in Hk.
Qed.

(** What a successful validation against an object schema tells. *)
Lemma validate_object_inv keys path v :
  Joi.validate_at env (Joi.object_ keys) path v = None →
  ∃ o, v = JObj o
       ∧ (∀ k, k ∈ map fst o →
               k ∈ map (λ c : string * Joi.presence * Joi.schema, c.1.1) keys)
       ∧ Forall (λ c : string * Joi.presence * Joi.schema,
                   match obj_get c.1.1 o with
                   | None => c.1.2 = Joi.optional
                   | Some x =>
                       Joi.validate_at env c.2 (Joi.child path c.1.1) x = None
                   end) keys.
Proof.
  simpl. destruct v as [| | | | |o]; try done.
  destruct (Joi.first_error _ 0 keys) eqn:Hchildren; [done|].
  destruct (Joi.unknown_keys keys o) eqn:Hunknown; [|done].
  intros _. exists o. split; [done|]. split.
  - intros k. by apply unknown_keys_nil.
  - apply list.Forall_forall. intros c Hc.
    destruct (first_error_None _ _ _ _ Hchildren Hc) as [j Hj].
    destruct (obj_get c.1.1 o); [done|].
    by destruct (c.1.2).
Qed.

(** A key that the schema does not name makes validation fail. *)
Lemma validate_rejects_unknown keys o k :
  k ∈ map fst o →
  k ∉ map (λ c : string * Joi.presence * Joi.schema, c.1.1) keys →
  is_Some (Joi.validate env (Joi.object_ keys) (JObj o)).
Proof.
  intros Hin Hout.
  destruct (Joi.validate env (Joi.object_ keys) (JObj o)) eqn:Hv; [by eexists|].
  unfold Joi.validate in Hv.
  apply validate_object_inv in Hv as (o' & [= <-] & Hknown & _).
  by destruct Hout; apply Hknown.
Qed.

End Validation.

(** ** The authorization guards *)

Section Guards.
Context (env : Env).

(** The guard of src/utils/auth.js: no header, a header that does not start
    with ["Bearer "], or a token that does not verify give 401; anything
    else yields the claims of the token. *)
Lemma authenticateToken_spec ev :
  match Auth.authenticateToken env ev with
  | Auth.Invalid r =>
      Response.statusCode r = 401
      ∧ (Auth.authHeader ev = None
         ∨ (∃ h, Auth.authHeader ev = Some h ∧ startsWith h "Bearer " = false)
         ∨ (∃ h, Auth.authHeader ev = Some h ∧ startsWith h "Bearer " = true
                 ∧ Auth.verifyToken env (substring_from 7 h) = None))
  | Auth.Valid user =>
      ∃ h, Auth.authHeader ev = Some h ∧ startsWith h "Bearer " = true
           ∧ Auth.verifyToken env (substring_from 7 h) = Some user
  end.
Proof.
  unfold Auth.authenticateToken.
  destruct (Auth.authHeader ev) as [h|]; [|by simpl; split; [|left]].
  destruct (startsWith h "Bearer ") eqn:Hprefix; simpl.
  - destruct (Auth.verifyToken env (substring_from 7 h)) eqn:Hverify; simpl.
    + by exists h.
    + split; [done|]. right; right. by exists h.
  - split; [done|]. right; left. by exists h.
Qed.

Lemma authenticateToken_invalid_401 ev r :
  Auth.authenticateToken env ev = Auth.Invalid r → Response.statusCode r = 401.
Proof.
  intros H. pose proof (authenticateToken_spec ev) as Hspec.
  rewrite H in Hspec. tauto.
Qed.

Lemma authorize_invalid_401 ev r :
  Orders.authorize env ev = inl r → Response.statusCode r = 401.
Proof.
  unfold Orders.authorize. destruct (Auth.authHeader ev); [|by intros [= <-]].
  destruct (Orders.verifyToken env _); [done|by intros [= <-]].
Qed.

End Guards.

(** C2.  Every protected endpoint must answer 401 to an Authorization header
    that is not of the form ["Bearer <token>"].  The product handlers do (the
    guard of src/utils/auth.js), the order handlers do not: they cut the first
    ["Bearer "] out of the header, if there is one, and verify what is left.
    Here the header is the bare token of a registered user: the product
    endpoint refuses it, the order endpoint serves the order. *)
Theorem orders_accept_header_without_Bearer :
  let ev := Demo.get_order {[ "Authorization" := "tokA" ]} in
  Auth.authHeader ev = Some "tokA"
  ∧ startsWith "tokA" "Bearer " = false
  ∧ Response.statusCode (Products.delete Demo.env ev Demo.world).1 = 401
  ∧ Response.body (Products.delete Demo.env ev Demo.world).1
    = Response.Failure "Invalid authorization format. Use: Bearer <token>"
  ∧ Orders.authorize Demo.env ev = inr Demo.alice
  ∧ Response.statusCode (Orders.getById Demo.env ev Demo.world).1 = 200
  ∧ Response.body (Orders.getById Demo.env ev Demo.world).1
    = Response.Success (Response.Record_ Demo.order1).
Proof. repeat split; vm_compute; reflexivity. Qed.

(** ** Orders: reading one order *)

(** What [getById] computes once the guard is passed. *)
Lemma getById_eval env ev w id caller :
  Orders.authorize env ev = inr caller →
  pathParameters ev !! "id" = Some id →
  Orders.getById env ev w
  = (match table w !! (id, "order") with
     | None => Response.notFound "Order not found" None
     | Some o =>
         if Orders.not_owner o caller
         then Response.unauthorized "Access denied" None
         else Response.success (Response.Record_ o) None
     end, w).
Proof.
  intros Hauth Hid. unfold Orders.getById, try_catch.
  rewrite Hauth, Hid. unfold bind, key_for, ret, Dynamo.get. simpl.
  destruct (table w !! (id, "order")) as [o|]; [|done].
  by destruct (Orders.not_owner o caller).
Qed.

Lemma not_owner_false order caller :
  Orders.not_owner order caller = false ↔
  order !! "userId" = Some (JStr (userId caller)).
Proof.
  unfold Orders.not_owner.
  destruct (order !! "userId") as [[|b|n|u|l|o]|]; simpl; try (split; congruence).
  destruct (String.eqb_spec u (userId caller)) as [->|Hne]; simpl;
    split; congruence.
Qed.

(** C3.  For a caller who passed the guard: no order under the id gives 404;
    an order whose userId is not the caller's gives 401 ("Access denied"),
    not 404; the owner gets the order with 200.  The table is left alone. *)
Theorem getById_404_401_200 env ev w id caller :
  Orders.authorize env ev = inr caller →
  pathParameters ev !! "id" = Some id →
  let r := Orders.getById env ev w in
  r.2 = w
  ∧ (table w !! (id, "order") = None →
     Response.statusCode r.1 = 404
     ∧ Response.body r.1 = Response.Failure "Order not found")
  ∧ (∀ order, table w !! (id, "order") = Some order →
       order !! "userId" ≠ Some (JStr (userId caller)) →
       Response.statusCode r.1 = 401
       ∧ Response.body r.1 = Response.Failure "Access denied")
  ∧ (∀ order, table w !! (id, "order") = Some order →
       order !! "userId" = Some (JStr (userId caller)) →
       Response.statusCode r.1 = 200
       ∧ Response.body r.1 = Response.Success (Response.Record_ order)).
Proof.
  intros Hauth Hid r. subst r. rewrite (getById_eval _ _ _ _ _ Hauth Hid).
  simpl. split; [done|]. split; [|split].
  - by intros ->.
  - intros order -> Hother.
    destruct (Orders.not_owner order caller) eqn:Hno; [done|].
    by apply not_owner_false in Hno.
  - intros order -> Hown. apply not_owner_false in Hown. by rewrite Hown.
Qed.

Lemma getById_404_401_200_witness :
  let ev := Demo.get_order (Demo.bearer "tokB") in
  let r := Orders.getById Demo.env ev Demo.world in
  Orders.authorize Demo.env ev = inr Demo.bob
  ∧ table Demo.world !! ("o1", "order") = Some Demo.order1
  ∧ Response.statusCode r.1 = 401
  ∧ Response.body r.1 = Response.Failure "Access denied".
Proof.
  intros ev r.
  assert (Orders.authorize Demo.env ev = inr Demo.bob) as Hauth
    by (vm_compute; reflexivity).
  assert (table Demo.world !! ("o1", "order") = Some Demo.order1) as Horder
    by (vm_compute; reflexivity).
  split; [exact Hauth|]. split; [exact Horder|].
  refine (proj1 (proj2 (proj2 (getById_404_401_200 Demo.env ev Demo.world "o1"
                                 Demo.bob Hauth _))) Demo.order1 Horder _).
  - vm_compute; reflexivity.
  - vm_compute. discriminate.
Defined.

(** ** Products: deleting *)

(** C6.  For a caller who passed the guard: deleting a product that exists
    answers 200 with the acknowledgement and removes the record; deleting one
    that does not exist answers 404 and changes nothing.  So the same delete
    issued twice answers 200 and then 404. *)
Theorem delete_ack_then_not_found env ev w id user :
  Auth.authenticateToken env ev = Auth.Valid user →
  pathParameters ev !! "id" = Some id →
  let first := Products.delete env ev w in
  let second := Products.delete env ev first.2 in
  (table w !! (id, "product") = None →
     Response.statusCode first.1 = 404
     ∧ Response.body first.1 = Response.Failure "Product not found"
     ∧ first.2 = w)
  ∧ (is_Some (table w !! (id, "product")) →
     Response.statusCode first.1 = 200
     ∧ Response.body first.1
       = Response.Success (Response.Message "Product deleted successfully")
     ∧ table first.2 = delete (id, "product") (table w)
     ∧ table first.2 !! (id, "product") = None
     ∧ Response.statusCode second.1 = 404
     ∧ second.2 = first.2).
Proof.
  intros Hauth Hid. unfold Products.delete, try_catch.
  rewrite Hauth, Hid. unfold bind, key_for, ret, Dynamo.get, Dynamo.remove.
  simpl. destruct (table w !! (id, "product")) as [p|] eqn:Hget; simpl.
  - split; [done|]. intros _. rewrite lookup_delete_eq. simpl.
    repeat split; done.
  - split; [done|]. by intros [? ?].
Qed.

Lemma delete_ack_then_not_found_witness :
  let first := Products.delete Demo.env Demo.delete_pen Demo.world in
  let second := Products.delete Demo.env Demo.delete_pen first.2 in
  Auth.authenticateToken Demo.env Demo.delete_pen = Auth.Valid Demo.alice
  ∧ Response.statusCode first.1 = 200 ∧ Response.statusCode second.1 = 404.
Proof.
  split; [vm_compute; reflexivity|].
  pose proof (delete_ack_then_not_found Demo.env Demo.delete_pen Demo.world
                "p1" Demo.alice) as H.
  cbv zeta in H.
  destruct H as [_ H].
  - vm_compute; reflexivity.
  - vm_compute; reflexivity.
  - destruct H as (H1 & _ & _ & _ & H2 & _).
    + vm_compute. eexists. reflexivity.
    + split; [exact H1|exact H2].
Defined.

(** ** Orders: creating *)

Section OrderCreate.
Context (env : Env).

Lemma validate_number_inv rules path v :
  Joi.validate_at env (Joi.number_ rules) path v = None →
  ∃ n, v = JNum n ∧ Joi.first_failure Joi.check_number_rule rules n = None.
Proof.
  simpl. destruct v as [| |n| | |]; try done.
  destruct (Joi.first_failure _ rules n) eqn:Hr; [done|]. by exists n.
Qed.

Lemma validate_array_inv items min_items path v :
  Joi.validate_at env (Joi.array_ items min_items) path v = None →
  ∃ l, v = JArr l ∧ (min_items ≤ length l)%nat
       ∧ Forall (λ x, ∃ p, Joi.validate_at env items p x = None) l.
Proof.
  simpl. destruct v as [| | | |l|]; try done.
  destruct (Joi.first_error _ 0 l) eqn:Helems; [done|].
  destruct (Nat.leb_spec min_items (length l)) as [Hle|]; [|done].
  intros _. exists l. split; [done|]. split; [done|].
  apply list.Forall_forall. intros x Hx.
  destruct (first_error_None _ _ _ _ Helems Hx) as [j Hj]. eauto.
Qed.

Lemma validate_orderItem_inv path x :
  Joi.validate_at env Orders.orderItemSchema path x = None →
  ∃ line, is_line x line.
Proof.
  intros Hv. unfold Orders.orderItemSchema in Hv.
  apply validate_object_inv in Hv as (o & -> & _ & Hchildren).
  children Hchildren. rename Hchild0 into Hq, Hchild1 into Hp.
  destruct (obj_get "quantity" o) as [q|] eqn:Hoq; [|done].
  destruct (obj_get "price" o) as [p|] eqn:Hop; [|done].
  apply validate_number_inv in Hq as (q' & -> & Hq).
  apply validate_number_inv in Hp as (p' & -> & Hp).
  simpl in Hq, Hp. rename q' into q, p' into p.
  destruct (Joi.is_integer q) eqn:Hint; [|done].
  destruct (bool_decide (Qc_of_Z 1 ≤ q)%Qc) eqn:Hmin; [|done].
  destruct (bool_decide (0 < p)%Qc) eqn:Hpos; [|done].
  apply bool_decide_eq_true in Hmin, Hpos.
  exists (p, q). unfold is_line. simpl. by rewrite Hoq, Hop.
Qed.

Lemma validate_orderItems_inv l :
  Forall (λ x, ∃ p, Joi.validate_at env Orders.orderItemSchema p x = None) l →
  ∃ lines, Forall2 is_line l lines.
Proof.
  induction 1 as [|x l [p Hx] _ [lines IH]].
  - by exists [].
  - apply validate_orderItem_inv in Hx as [line Hline].
    exists (line :: lines). by constructor.
Qed.

(** What passing [orderSchema] tells about the body. *)
Lemma validate_order_inv v :
  Joi.validate env Orders.orderSchema v = None →
  ∃ items lines address,
    prop "items" v = Some (JArr items)
    ∧ prop "shippingAddress" v = Some address
    ∧ items ≠ []
    ∧ Forall2 is_line items lines
    ∧ (∀ k, prop k v ≠ None → k = "items" ∨ k = "shippingAddress").
Proof.
  unfold Joi.validate, Orders.orderSchema. intros Hv.
  apply validate_object_inv in Hv as (o & -> & Hknown & Hchildren).
  children Hchildren. rename Hchild into Hi, Hchild0 into Ha.
  destruct (obj_get "items" o) as [items|] eqn:Hitems; [|done].
  destruct (obj_get "shippingAddress" o) as [address|] eqn:Haddr; [|done].
  apply validate_array_inv in Hi as (l & -> & Hlen & Hall).
  destruct (validate_orderItems_inv _ Hall) as [lines Hlines].
  exists l, lines, address. simpl. repeat split; try done.
  - destruct l; [simpl in Hlen; lia|done].
  - intros k Hk.
    apply obj_get_keys, Hknown in Hk. simpl in Hk.
    rewrite !elem_of_cons, elem_of_nil in Hk. tauto.
Qed.

Lemma totalAmount_sigma items lines :
  Forall2 is_line items lines → Orders.totalAmount items = Some (sigma lines).
Proof.
  unfold Orders.totalAmount.
  assert (∀ a, Forall2 is_line items lines →
               foldl (λ sum item,
                        Orders.add sum
                          (Orders.mul (Orders.to_number (prop "price" item))
                             (Orders.to_number (prop "quantity" item))))
                     (Some a) items = Some (a + sigma lines)%Qc) as Hgen.
  { intros a Hall. revert a.
    induction Hall as [|x [p q] items lines (Hp & Hq & _) _ IH]; intros a.
    - simpl. by rewrite Qcplus_0_r.
    - simpl. rewrite Hp, Hq. simpl. rewrite IH. f_equal.
      by rewrite Qcplus_assoc. }
  intros Hall. rewrite (Hgen 0%Qc Hall). by rewrite Qcplus_0_l.
Qed.

End OrderCreate.

Section OrderCreated.
Context (env : Env).

(** What [create] computes for a request that passes the guard and the
    schema: the order it stores and returns. *)
Lemma create_order_eval ev w decoded v items lines address :
  Orders.authorize env ev = inr decoded →
  body ev = Parsed v →
  Joi.validate env Orders.orderSchema v = None →
  prop "items" v = Some (JArr items) →
  prop "shippingAddress" v = Some address →
  Forall2 is_line items lines →
  ∃ order : item,
    Orders.create env ev w
    = (Response.created (Response.Record_ order) None,
       MkWorld (<[(uuidv4 env (draws w), "order") := order]> (table w))
               (S (S (ticks w))) (S (draws w)))
    ∧ order !! "id" = Some (JStr (uuidv4 env (draws w)))
    ∧ order !! "type" = Some (JStr "order")
    ∧ order !! "userId" = Some (JStr (userId decoded))
    ∧ order !! "userEmail" = Some (JStr (email decoded))
    ∧ order !! "status" = Some (JStr "pending")
    ∧ order !! "items" = Some (JArr items)
    ∧ order !! "shippingAddress" = Some address
    ∧ order !! "totalAmount" = Some (JNum (sigma lines)).
Proof.
  intros Hauth Hbody Hvalid Hitems Haddress Hlines.
  unfold Orders.create, try_catch. rewrite Hauth, Hbody.
  unfold bind, JSON_parse, ret. cbv beta iota. rewrite Hvalid.
  unfold fresh_uuid. cbv beta iota. rewrite Hitems.
  rewrite (totalAmount_sigma _ _ Hlines).
  unfold now. cbv beta iota. rewrite Haddress. cbv beta iota.
  cbn [table ticks draws].
  match goal with |- context [Dynamo.put ?o] => set (order := o) end.
  exists order. unfold Dynamo.put.
  replace (Dynamo.key_of order) with (Some (uuidv4 env (draws w), "order"))
    by reflexivity.
  cbn [table ticks draws]. repeat split; reflexivity.
Qed.

Lemma create_order_unauthorized ev w response :
  Orders.authorize env ev = inl response →
  Orders.create env ev w = (response, w).
Proof. intros Hauth. unfold Orders.create, try_catch. by rewrite Hauth. Qed.

Lemma create_order_syntax_error ev w decoded :
  Orders.authorize env ev = inr decoded →
  body ev = SyntaxError →
  Orders.create env ev w
  = (Response.serverError "Internal server error" None, w).
Proof.
  intros Hauth Hbody. unfold Orders.create, try_catch.
  by rewrite Hauth, Hbody.
Qed.

Lemma create_order_invalid ev w decoded v error :
  Orders.authorize env ev = inr decoded →
  body ev = Parsed v →
  Joi.validate env Orders.orderSchema v = Some error →
  Orders.create env ev w
  = (Response.badRequest (Joi.message error) None, w).
Proof.
  intros Hauth Hbody Hinvalid. unfold Orders.create, try_catch.
  rewrite Hauth, Hbody. unfold bind, JSON_parse, ret. cbv beta iota.
  by rewrite Hinvalid.
Qed.

End OrderCreated.



(** C10.  An order that [create] stores carries the userId and the email of
    the claims the guard returned for the request and the status "pending";
    and a body with any key other than items and shippingAddress is answered
    with 400 and nothing is stored.  So nothing in the body reaches the
    ownership fields. *)
Theorem create_order_owner_is_token_subject env ev w :
  let r := Orders.create env ev w in
  (Response.statusCode r.1 = 201 →
   ∃ decoded (order : item),
     Orders.authorize env ev = inr decoded
     ∧ Response.body r.1 = Response.Success (Response.Record_ order)
     ∧ table r.2 !! (uuidv4 env (draws w), "order") = Some order
     ∧ order !! "userId" = Some (JStr (userId decoded))
     ∧ order !! "userEmail" = Some (JStr (email decoded))
     ∧ order !! "status" = Some (JStr "pending"))
  ∧ (∀ orderData k,
       body ev = Parsed orderData →
       prop k orderData ≠ None →
       k ≠ "items" → k ≠ "shippingAddress" →
       r.2 = w
       ∧ (Response.statusCode r.1 = 400 ∨ Response.statusCode r.1 = 401)
       ∧ (∀ decoded, Orders.authorize env ev = inr decoded →
                     Response.statusCode r.1 = 400)).
Proof.
  intros r. subst r. split.
  - intros Hcreated.
    destruct (Orders.authorize env ev) as [response|decoded] eqn:Hauth.
    { rewrite (create_order_unauthorized _ _ _ _ Hauth) in Hcreated.
      apply authorize_invalid_401 in Hauth. simpl in Hcreated. congruence. }
    destruct (body ev) as [|v] eqn:Hbody.
    { by rewrite (create_order_syntax_error _ _ _ _ Hauth Hbody) in Hcreated. }
    destruct (Joi.validate env Orders.orderSchema v) as [error|] eqn:Hvalid.
    { by rewrite (create_order_invalid _ _ _ _ _ _ Hauth Hbody Hvalid)
        in Hcreated. }
    destruct (validate_order_inv _ _ Hvalid)
      as (items & lines & address & Hitems & Haddress & _ & Hlines & _).
    destruct (create_order_eval _ _ w _ _ _ _ _ Hauth Hbody Hvalid Hitems
                Haddress Hlines)
      as (order & -> & _ & _ & Huser & Hemail & Hstatus & _).
    exists decoded, order. simpl. by rewrite lookup_insert_eq.
  - intros orderData k Hbody Hk Hitems Haddress.
    destruct (Orders.authorize env ev) as [response|decoded] eqn:Hauth.
    { rewrite (create_order_unauthorized _ _ _ _ Hauth).
      apply authorize_invalid_401 in Hauth. simpl.
      split; [done|]. split; [by right|]. by intros. }
    destruct (Joi.validate env Orders.orderSchema orderData) as [error|]
      eqn:Hvalid.
    + rewrite (create_order_invalid _ _ _ _ _ _ Hauth Hbody Hvalid). simpl.
      split; [done|]. split; [by left|]. by intros.
    + destruct (validate_order_inv _ _ Hvalid)
        as (_ & _ & _ & _ & _ & _ & _ & Hknown).
      by destruct (Hknown k Hk).
Qed.

Lemma create_order_owner_is_token_subject_witness :
  let ev := Event (Demo.bearer "tokB") ∅
              (Parsed (JObj [ ("userId", JStr "user-A");
                              ("items", JArr [ Demo.line "p1" 1 (Qmake 2 1) ]);
                              ("shippingAddress", Demo.address) ])) in
  Response.statusCode (Orders.create Demo.env Demo.post_order Demo.world).1 = 201
  ∧ (∃ order : item,
       table (Orders.create Demo.env Demo.post_order Demo.world).2
         !! ("uuid-0", "order") = Some order
       ∧ order !! "userId" = Some (JStr "user-A"))
  ∧ Response.statusCode (Orders.create Demo.env ev Demo.world).1 = 400.
Proof.
  intros ev.
  assert (Response.statusCode
            (Orders.create Demo.env Demo.post_order Demo.world).1 = 201) as H
    by (vm_compute; reflexivity).
  split; [exact H|]. split.
  - destruct (proj1 (create_order_owner_is_token_subject Demo.env Demo.post_order
                       Demo.world) H)
      as (decoded & order & Hauth & _ & Hstored & Huser & _).
    exists order. split; [exact Hstored|].
    rewrite Huser. injection Hauth as <-. reflexivity.
  - refine (proj2 (proj2 (proj2 (create_order_owner_is_token_subject Demo.env ev
                                   Demo.world) _ "userId" _ _ _ _))
                   Demo.bob _).
    + reflexivity.
    + vm_compute; discriminate.
    + discriminate.
    + discriminate.
    + vm_compute; reflexivity.
Defined.

(** ** Object spread and attribute assignment *)

Lemma spread_lookup_notin (m : item) o k :
  k ∉ map fst o → spread m o !! k = m !! k.
Proof.
  revert m. induction o as [|[k' v'] o IH]; intros m Hk; [done|].
  simpl in Hk. apply not_elem_of_cons in Hk as [Hne Hk].
  unfold spread in *. simpl. rewrite IH by done. by apply lookup_insert_ne.
Qed.

Lemma spread_lookup_in (m : item) o k v :
  NoDup (map fst o) → (k, v) ∈ o → spread m o !! k = Some v.
Proof.
  revert m. induction o as [|[k' v'] o IH]; intros m Hnodup Hin.
  - by apply elem_of_nil in Hin.
  - simpl in Hnodup. apply list.NoDup_cons in Hnodup as [Hfresh Hnodup].
    apply elem_of_cons in Hin as [[= -> ->]|Hin].
    + change (spread (<[k':=v']> m) o !! k' = Some v').
      rewrite spread_lookup_notin by done. apply lookup_insert_eq.
    + change (spread (<[k':=v']> m) o !! k = Some v). by apply IH.
Qed.


(** ** Products: creating *)

Section ProductCreate.
Context (env : Env).

Lemma validate_product_inv v :
  Joi.validate env Products.productSchema v = None →
  ∃ o, v = JObj o ∧ ∀ k, k ∈ map fst o → k ∈ product_fields.
Proof.
  unfold Joi.validate, Products.productSchema. intros Hv.
  apply validate_object_inv in Hv as (o & -> & Hknown & _). by exists o.
Qed.

Lemma validate_update_inv v :
  Joi.validate env Products.updateProductSchema v = None →
  ∃ o, v = JObj o ∧ ∀ k, k ∈ map fst o → k ∈ product_fields.
Proof.
  unfold Joi.validate, Products.updateProductSchema. intros Hv.
  apply validate_object_inv in Hv as (o & -> & Hknown & _). by exists o.
Qed.

Lemma product_fields_not_reserved k :
  k ∈ product_fields → k ≠ "id" ∧ k ≠ "type" ∧ k ≠ "updatedAt" ∧ k ≠ "createdAt".
Proof.
  unfold product_fields. rewrite !elem_of_cons, elem_of_nil.
  intros [->|[->|[->|[->|[->|[->|[]]]]]]]; by repeat split.
Qed.

Lemma create_product_unauthorized ev w response :
  Auth.authenticateToken env ev = Auth.Invalid response →
  Products.create env ev w = (response, w).
Proof. intros Hauth. unfold Products.create, try_catch. by rewrite Hauth. Qed.

Lemma create_product_syntax_error ev w user :
  Auth.authenticateToken env ev = Auth.Valid user →
  body ev = SyntaxError →
  Products.create env ev w
  = (Response.serverError "Internal server error" None, w).
Proof.
  intros Hauth Hbody. unfold Products.create, try_catch.
  by rewrite Hauth, Hbody.
Qed.

Lemma create_product_invalid ev w user v error :
  Auth.authenticateToken env ev = Auth.Valid user →
  body ev = Parsed v →
  Joi.validate env Products.productSchema v = Some error →
  Products.create env ev w
  = (Response.badRequest (Joi.message error) None, w).
Proof.
  intros Hauth Hbody Hinvalid. unfold Products.create, try_catch.
  rewrite Hauth, Hbody. unfold bind, JSON_parse, ret. cbv beta iota.
  by rewrite Hinvalid.
Qed.

(** What [create] computes for a request that passes the guard and the
    schema. *)
Lemma create_product_eval ev w user v :
  Auth.authenticateToken env ev = Auth.Valid user →
  body ev = Parsed v →
  Joi.validate env Products.productSchema v = None →
  ∃ product : item,
    Products.create env ev w
    = (Response.created (Response.Record_ product) None,
       MkWorld (<[(uuidv4 env (draws w), "product") := product]> (table w))
               (S (S (ticks w))) (S (draws w)))
    ∧ product !! "id" = Some (JStr (uuidv4 env (draws w)))
    ∧ product !! "type" = Some (JStr "product")
    ∧ (∀ k x, NoDup (map fst (Products.entries v)) →
              (k, x) ∈ Products.entries v → product !! k = Some x).
Proof.
  intros Hauth Hbody Hvalid.
  destruct (validate_product_inv _ Hvalid) as (o & -> & Hknown).
  assert (("id" ∉ map fst o) ∧ ("type" ∉ map fst o)) as [Hid Htype].
  { split; intros Hin; apply Hknown, product_fields_not_reserved in Hin;
      tauto. }
  unfold Products.create, try_catch. rewrite Hauth, Hbody.
  unfold bind, JSON_parse, ret. cbv beta iota. rewrite Hvalid.
  unfold fresh_uuid, now. cbv beta iota. cbn [table ticks draws Products.entries].
  match goal with |- context [Dynamo.put ?p] => set (product := p) end.
  assert (product !! "id" = Some (JStr (uuidv4 env (draws w)))) as Hpid.
  { subst product. rewrite !lookup_insert_ne by done.
    rewrite spread_lookup_notin by done. by rewrite lookup_insert_ne. }
  assert (product !! "type" = Some (JStr "product")) as Hptype.
  { subst product. rewrite !lookup_insert_ne by done.
    rewrite spread_lookup_notin by done. by rewrite lookup_insert_eq. }
  exists product. unfold Dynamo.put, Dynamo.key_of. rewrite Hpid, Hptype.
  cbn [table ticks draws]. repeat split; try done.
  intros k x Hnodup Hin. subst product.
  assert (k ∈ map fst o) as Hk.
  { apply list_elem_of_fmap. by exists (k, x). }
  apply Hknown, product_fields_not_reserved in Hk as (_ & _ & Hu & Hc).
  rewrite !lookup_insert_ne by done. by apply spread_lookup_in.
Qed.

End ProductCreate.

(** C9.  A product that [create] stores and returns has the identifier the
    server drew for it as its id and "product" as its type; and a body with a
    key id or type is answered with 400 and nothing is stored. *)
Theorem create_product_key_is_server_side env ev w :
  let r := Products.create env ev w in
  (Response.statusCode r.1 = 201 →
   ∃ product : item,
     Response.body r.1 = Response.Success (Response.Record_ product)
     ∧ table r.2 !! (uuidv4 env (draws w), "product") = Some product
     ∧ product !! "id" = Some (JStr (uuidv4 env (draws w)))
     ∧ product !! "type" = Some (JStr "product"))
  ∧ (∀ productData,
       body ev = Parsed productData →
       prop "id" productData ≠ None ∨ prop "type" productData ≠ None →
       r.2 = w
       ∧ (Response.statusCode r.1 = 400 ∨ Response.statusCode r.1 = 401)
       ∧ (∀ user, Auth.authenticateToken env ev = Auth.Valid user →
                  Response.statusCode r.1 = 400)).
Proof.
  intros r. subst r. split.
  - intros Hcreated.
    destruct (Auth.authenticateToken env ev) as [user|response] eqn:Hauth.
    2:{ rewrite (create_product_unauthorized _ _ _ _ Hauth) in Hcreated.
        apply authenticateToken_invalid_401 in Hauth. simpl in Hcreated.
        congruence. }
    destruct (body ev) as [|v] eqn:Hbody.
    { by rewrite (create_product_syntax_error _ _ _ _ Hauth Hbody) in Hcreated. }
    destruct (Joi.validate env Products.productSchema v) as [error|] eqn:Hvalid.
    { by rewrite (create_product_invalid _ _ _ _ _ _ Hauth Hbody Hvalid)
        in Hcreated. }
    destruct (create_product_eval _ _ w _ _ Hauth Hbody Hvalid)
      as (product & -> & Hid & Htype & _).
    exists product. simpl. by rewrite lookup_insert_eq.
  - intros productData Hbody Hkey.
    destruct (Auth.authenticateToken env ev) as [user|response] eqn:Hauth.
    2:{ rewrite (create_product_unauthorized _ _ _ _ Hauth).
        apply authenticateToken_invalid_401 in Hauth. simpl.
        split; [done|]. split; [by right|]. by intros. }
    destruct (Joi.validate env Products.productSchema productData) as [error|]
      eqn:Hvalid.
    + rewrite (create_product_invalid _ _ _ _ _ _ Hauth Hbody Hvalid). simpl.
      split; [done|]. split; [by left|]. by intros.
    + destruct (validate_product_inv _ _ Hvalid) as (o & -> & Hknown).
      simpl in Hkey.
      destruct Hkey as [Hkey|Hkey];
        apply obj_get_keys, Hknown, product_fields_not_reserved in Hkey; tauto.
Qed.

Lemma create_product_key_is_server_side_witness :
  let ev := Event (Demo.bearer "tokA") ∅
              (Parsed (JObj [ ("id", JStr "p1"); ("name", JStr "Pen");
                              ("price", Demo.num 1); ("category", JStr "office");
                              ("stock", Demo.num 10) ])) in
  Response.statusCode (Products.create Demo.env Demo.post_product Demo.world).1 = 201
  ∧ (∃ product : item,
       table (Products.create Demo.env Demo.post_product Demo.world).2
         !! ("uuid-0", "product") = Some product
       ∧ product !! "id" = Some (JStr "uuid-0"))
  ∧ Response.statusCode (Products.create Demo.env ev Demo.world).1 = 400.
Proof.
  intros ev.
  assert (Response.statusCode
            (Products.create Demo.env Demo.post_product Demo.world).1 = 201) as H
    by (vm_compute; reflexivity).
  split; [exact H|]. split.
  - destruct (proj1 (create_product_key_is_server_side Demo.env Demo.post_product
                       Demo.world) H) as (product & _ & Hstored & Hid & _).
    exists product. split; [exact Hstored|exact Hid].
  - refine (proj2 (proj2 (proj2 (create_product_key_is_server_side Demo.env ev
                                   Demo.world) _ _ _))
                   Demo.alice _).
    + reflexivity.
    + left. vm_compute. discriminate.
    + vm_compute; reflexivity.
Defined.

(** ** The store's update *)

Lemma not_key_attribute l a :
  existsb Dynamo.is_key_attribute l = false →
  Dynamo.is_key_attribute a = true → a ∉ l.
Proof.
  intros Hnone Hkey Hin. apply list_elem_of_In in Hin.
  assert (existsb Dynamo.is_key_attribute l = true) as Hsome
    by (apply existsb_exists; eauto).
  congruence.
Qed.

(** [Dynamo.update] leaves every other item alone and never changes the id
    or the type of the item it is aimed at, whatever it is asked to assign. *)
Lemma dynamo_update_keeps_keys key updateExpression values names w k (it : item) :
  table w !! k = Some it →
  ∃ it' : item,
    table (Dynamo.update key updateExpression values names w).2 !! k = Some it'
    ∧ it' !! "id" = it !! "id"
    ∧ it' !! "type" = it !! "type".
Proof.
  intros Hk. unfold Dynamo.update.
  destruct (mapM _ updateExpression) as [sets|]; [|by exists it].
  destruct (existsb _ _) eqn:Hkeys; [by exists it|].
  destruct (bool_decide _); [|by exists it].
  cbn [snd table].
  destruct (decide (key = k)) as [->|Hne].
  - rewrite lookup_insert_eq, Hk. simpl. eexists. split; [done|].
    split; apply (spread_lookup_notin it sets);
      by apply (not_key_attribute _ _ Hkeys).
  - rewrite lookup_insert_ne by done. by exists it.
Qed.

(** ** The update-expression builder *)

Section Builder.
Import Products.

Local Abbreviation attr i := ("#attr" +:+ pretty i).
Local Abbreviation val i := (":val" +:+ pretty i).

Lemma resolve_weaken names values e x n k v y :
  Dynamo.resolve names values e = Some x →
  names !! n = None → values !! v = None →
  Dynamo.resolve (<[n := k]> names) (<[v := y]> values) e = Some x.
Proof.
  unfold Dynamo.resolve, Dynamo.resolve_name. destruct e as [a c]. simpl.
  intros Hres Hn Hv.
  destruct (values !! c) as [z|] eqn:Hc;
    [|by destruct (if String.prefix "#" a then _ else _)].
  assert (<[v := y]> values !! c = Some z) as ->.
  { rewrite lookup_insert_ne; [done|]. intros ->. congruence. }
  destruct (String.prefix "#" a); [|done].
  destruct (names !! a) as [a'|] eqn:Ha; [|done].
  assert (<[n := k]> names !! a = Some a') as ->; [|done].
  rewrite lookup_insert_ne; [done|]. intros ->. congruence.
Qed.

Lemma attr_inj (i j : nat) : attr i = attr j → i = j.
Proof. intros H. apply (inj _) in H. by apply (inj pretty). Qed.

Lemma val_inj (i j : nat) : val i = val j → i = j.
Proof. intros H. apply (inj _) in H. by apply (inj pretty). Qed.

Lemma forEach_resolves updateData : ∀ index b sets,
  resolves b sets →
  (∀ j, (index ≤ j)%nat →
        expressionAttributeNames b !! attr j = None
        ∧ expressionAttributeValues b !! val j = None) →
  expressionAttributeNames b !! "#updatedAt" = None →
  expressionAttributeValues b !! ":updatedAt" = None →
  resolves (forEach updateData index b) (sets ++ updateData)
  ∧ expressionAttributeNames (forEach updateData index b) !! "#updatedAt" = None
  ∧ expressionAttributeValues (forEach updateData index b) !! ":updatedAt" = None.
Proof.
  induction updateData as [|[key value] rest IH];
    intros index b sets Hres Hfresh Hn Hv.
  - simpl. by rewrite app_nil_r.
  - simpl. replace (sets ++ (key, value) :: rest)%list
      with ((sets ++ [(key, value)]) ++ rest)%list
      by (by rewrite <- app_assoc).
    destruct (Hfresh index (le_n _)) as [Hfn Hfv].
    apply IH.
    + unfold resolves, assign. simpl. apply Forall2_app.
      * eapply Forall2_impl; [|exact Hres]. intros e x He.
        by apply resolve_weaken.
      * constructor; [|constructor].
        unfold Dynamo.resolve, Dynamo.resolve_name. simpl.
        by rewrite !lookup_insert_eq.
    + intros j Hj. destruct (Hfresh j ltac:(lia)) as [Hjn Hjv].
      unfold assign. simpl. split.
      * rewrite lookup_insert_ne; [done|].
        intros Heq. apply attr_inj in Heq. lia.
      * rewrite lookup_insert_ne; [done|].
        intros Heq. apply val_inj in Heq. lia.
    + unfold assign. simpl. by rewrite lookup_insert_ne.
    + unfold assign. simpl. by rewrite lookup_insert_ne.
Qed.

(** The expression the handler sends resolves to the entries of the
    payload, in order, followed by the timestamp. *)
Lemma builder_resolves updateData updatedAt :
  let b := stamp (forEach updateData 0 (Builder [] ∅ ∅)) updatedAt in
  mapM (Dynamo.resolve (expressionAttributeNames b)
          (expressionAttributeValues b)) (updateExpressions b)
  = Some (updateData ++ [("updatedAt", JStr updatedAt)]).
Proof.
  intros b. subst b. apply mapM_Some_2.
  destruct (forEach_resolves updateData 0 (Builder [] ∅ ∅) [])
    as (Hres & Hn & Hv); try done.
  { by constructor. }
  unfold stamp. simpl. apply Forall2_app.
  - eapply Forall2_impl; [|exact Hres]. intros e x He.
    by apply resolve_weaken.
  - constructor; [|constructor].
    unfold Dynamo.resolve, Dynamo.resolve_name. simpl.
    by rewrite !lookup_insert_eq.
Qed.

End Builder.

(** ** Products: updating *)

Section ProductUpdate.
Context (env : Env).

Lemma update_unauthorized ev w response :
  Auth.authenticateToken env ev = Auth.Invalid response →
  Products.update env ev w = (response, w).
Proof. intros Hauth. unfold Products.update, try_catch. by rewrite Hauth. Qed.

Lemma update_syntax_error ev w user :
  Auth.authenticateToken env ev = Auth.Valid user →
  body ev = SyntaxError →
  Products.update env ev w
  = (Response.serverError "Internal server error" None, w).
Proof.
  intros Hauth Hbody. unfold Products.update, try_catch.
  by rewrite Hauth, Hbody.
Qed.

Lemma update_invalid ev w user v error :
  Auth.authenticateToken env ev = Auth.Valid user →
  body ev = Parsed v →
  Joi.validate env Products.updateProductSchema v = Some error →
  Products.update env ev w
  = (Response.badRequest (Joi.message error) None, w).
Proof.
  intros Hauth Hbody Hinvalid. unfold Products.update, try_catch.
  rewrite Hauth, Hbody. unfold bind, JSON_parse, ret. cbv beta iota.
  by rewrite Hinvalid.
Qed.

(** What [update] computes once the guard and the schema are passed: it
    answers 404 or hands the built expression to the store. *)
Lemma update_valid ev w user v :
  Auth.authenticateToken env ev = Auth.Valid user →
  body ev = Parsed v →
  Joi.validate env Products.updateProductSchema v = None →
  Products.update env ev w
  = match pathParameters ev !! "id" with
    | None => (Response.serverError "Internal server error" None, w)
    | Some id =>
        match table w !! (id, "product") with
        | None => (Response.notFound "Product not found" None, w)
        | Some _ =>
            let b := Products.stamp
                       (Products.forEach (Products.entries v) 0
                          (Products.Builder [] ∅ ∅))
                       (toISOString env (ticks w)) in
            match Dynamo.update (id, "product")
                    (Products.updateExpressions b)
                    (Products.expressionAttributeValues b)
                    (Products.expressionAttributeNames b)
                    (MkWorld (table w) (S (ticks w)) (draws w)) with
            | (Normal updatedProduct, w') =>
                (Response.success (Response.Record_ updatedProduct) None, w')
            | (Throw _, w') =>
                (Response.serverError "Internal server error" None, w')
            end
        end
    end.
Proof.
  intros Hauth Hbody Hvalid. unfold Products.update, try_catch.
  rewrite Hauth, Hbody. unfold bind, JSON_parse, ret. cbv beta iota.
  rewrite Hvalid. destruct (pathParameters ev !! "id") as [id|]; [|done].
  unfold key_for, ret, Dynamo.get. cbv beta iota.
  destruct (table w !! (id, "product")) as [old|]; [|done].
  unfold now. cbv beta iota zeta.
  by destruct (Dynamo.update _ _ _ _ _) as [[p|e] w'].
Qed.

End ProductUpdate.

(** C4.  Whatever the request, [update] leaves every stored record with the
    id and the type it had; and a payload with a key id or type is turned
    away (400, or 401 when the guard refuses the caller) with the table
    untouched. *)
Theorem update_never_overwrites_id_or_type env ev w :
  let r := Products.update env ev w in
  (∀ k (it : item), table w !! k = Some it →
     ∃ it' : item, table r.2 !! k = Some it'
                   ∧ it' !! "id" = it !! "id"
                   ∧ it' !! "type" = it !! "type")
  ∧ (∀ updateData,
       body ev = Parsed updateData →
       prop "id" updateData ≠ None ∨ prop "type" updateData ≠ None →
       table r.2 = table w
       ∧ (Response.statusCode r.1 = 400 ∨ Response.statusCode r.1 = 401)).
Proof.
  intros r. subst r.
  destruct (Auth.authenticateToken env ev) as [user|response] eqn:Hauth.
  2:{ rewrite (update_unauthorized _ _ _ _ Hauth).
      apply authenticateToken_invalid_401 in Hauth. simpl. split; eauto. }
  destruct (body ev) as [|v] eqn:Hbody.
  { rewrite (update_syntax_error _ _ _ _ Hauth Hbody). simpl. split; eauto.
    by intros. }
  destruct (Joi.validate env Products.updateProductSchema v) as [error|]
    eqn:Hvalid.
  { rewrite (update_invalid _ _ _ _ _ _ Hauth Hbody Hvalid). simpl.
    split; eauto. }
  rewrite (update_valid _ _ _ _ _ Hauth Hbody Hvalid). split.
  - intros k it Hk.
    destruct (pathParameters ev !! "id") as [id|]; [|by exists it].
    destruct (table w !! (id, "product")) as [old|]; [|by exists it].
    cbv zeta.
    match goal with
    | |- context [Dynamo.update ?key ?ue ?vs ?ns ?w1] =>
        destruct (dynamo_update_keeps_keys key ue vs ns w1 k it Hk)
          as (it' & Hit' & Hid & Htype);
        destruct (Dynamo.update key ue vs ns w1) as [[p|e] w']
    end; by exists it'.
  - intros updateData [= <-] Hkey.
    destruct (validate_update_inv _ _ Hvalid) as (o & -> & Hknown).
    simpl in Hkey.
    destruct Hkey as [Hkey|Hkey];
      apply obj_get_keys, Hknown, product_fields_not_reserved in Hkey; tauto.
Qed.

Lemma update_never_overwrites_id_or_type_witness :
  let ev := Event (Demo.bearer "tokA") {[ "id" := "p1" ]}
              (Parsed (JObj [ ("id", JStr "p2"); ("stock", Demo.num 5) ])) in
  let r := Products.update Demo.env ev Demo.world in
  table Demo.world !! ("p1", "product") = Some Demo.pen
  ∧ (∃ it' : item, table r.2 !! ("p1", "product") = Some it'
                   ∧ it' !! "id" = Some (JStr "p1"))
  ∧ table r.2 = table Demo.world.
Proof.
  intros ev r.
  assert (table Demo.world !! ("p1", "product") = Some Demo.pen) as Hpen
    by (vm_compute; reflexivity).
  split; [exact Hpen|].
  pose proof (update_never_overwrites_id_or_type Demo.env ev Demo.world)
    as [Hkeep Hreject].
  split.
  - destruct (Hkeep _ _ Hpen) as (it' & Hit' & Hid & _).
    exists it'. split; [exact Hit'|]. rewrite Hid. vm_compute; reflexivity.
  - refine (proj1 (Hreject _ _ _)).
    + reflexivity.
    + left. vm_compute. discriminate.
Defined.

Lemma dynamo_update_eval key updateExpression values names w sets (old : item) :
  mapM (Dynamo.resolve names values) updateExpression = Some sets →
  existsb Dynamo.is_key_attribute (map fst sets) = false →
  NoDup (map fst sets) →
  table w !! key = Some old →
  Dynamo.update key updateExpression values names w
  = (Normal (spread old sets),
     MkWorld (<[key := spread old sets]> (table w)) (ticks w) (draws w)).
Proof.
  intros Hres Hkeys Hnodup Hold. unfold Dynamo.update.
  rewrite Hres, Hkeys, Hold. by rewrite bool_decide_eq_true_2.
Qed.




(** ** Registration and login *)

Section AuthHandlers.
Context (env : Env).
Import AuthHandlers.

Lemma register_syntax_error ev w :
  body ev = SyntaxError →
  register env ev w
  = (Response.serverError "Internal server error" (Some ev), w).
Proof. intros Hbody. unfold register, try_catch. by rewrite Hbody. Qed.

Lemma login_syntax_error ev w :
  body ev = SyntaxError →
  login env ev w
  = (Response.serverError "Internal server error" (Some ev), w).
Proof. intros Hbody. unfold login, try_catch. by rewrite Hbody. Qed.

Lemma destructure_not_null v w :
  v ≠ JNull → destructure v w = (Normal (λ k, prop k v), w).
Proof. by destruct v. Qed.

Lemma register_invalid ev w v error :
  body ev = Parsed v → v ≠ JNull →
  Joi.validate env registerSchema (register_input v) = Some error →
  register env ev w
  = (Response.badRequest (Joi.message error) (Some ev), w).
Proof.
  intros Hbody Hnull Hinvalid. unfold register, try_catch.
  rewrite Hbody. unfold bind, JSON_parse, ret. cbv beta iota.
  rewrite (destructure_not_null _ _ Hnull). cbv beta iota zeta.
  unfold register_input in Hinvalid. by rewrite Hinvalid.
Qed.

Lemma login_invalid ev w v error :
  body ev = Parsed v → v ≠ JNull →
  Joi.validate env loginSchema (login_input v) = Some error →
  login env ev w
  = (Response.badRequest (Joi.message error) (Some ev), w).
Proof.
  intros Hbody Hnull Hinvalid. unfold login, try_catch.
  rewrite Hbody. unfold bind, JSON_parse, ret. cbv beta iota.
  rewrite (destructure_not_null _ _ Hnull). cbv beta iota zeta.
  unfold login_input in Hinvalid. by rewrite Hinvalid.
Qed.

(** What [login] computes for a well-formed request. *)
Lemma login_eval ev w e p :
  login_request env ev e p →
  login env ev w
  = match table w !! (e, "user") with
    | None => (Response.unauthorized "Invalid credentials" (Some ev), w)
    | Some user =>
        match compare env p (user !! "password") w with
        | (Normal false, w') =>
            (Response.unauthorized "Invalid credentials" (Some ev), w')
        | (Normal true, w') =>
            try_catch
              (match user !! "userId", user !! "id" with
               | Some (JStr userId), Some (JStr id) =>
                   let* token := sign env (Claims userId id) in
                   ret (Response.success
                          (session token (Claims userId id) (user !! "name"))
                          (Some ev))
               | _, _ => throw "TypeError"
               end) (Some ev) w'
        | (Throw _, w') =>
            (Response.serverError "Internal server error" (Some ev), w')
        end
    end.
Proof.
  intros (v & Hbody & Hnull & He & Hp & Hvalid).
  unfold login, try_catch.
  rewrite Hbody. unfold bind, JSON_parse, ret. cbv beta iota.
  rewrite (destructure_not_null _ _ Hnull). cbv beta iota zeta.
  unfold login_input in Hvalid. rewrite Hvalid, He, Hp.
  unfold Dynamo.get. cbv beta iota.
  destruct (table w !! (e, "user")) as [user|]; [|done].
  destruct (compare env p (user !! "password") w) as [[[|]|] w']; done.
Qed.

End AuthHandlers.

(** C5.  A well-formed login for an email that has no account and a
    well-formed login with the wrong password for an email that has one are
    both answered with 401 and the same message, "Invalid credentials"; sent
    from the same origin, the two responses are equal. *)
Theorem login_failures_are_indistinguishable
    env ev1 w1 email1 password1 ev2 w2 email2 password2 (user : item) hash :
  login_request env ev1 email1 password1 →
  table w1 !! (email1, "user") = None →
  login_request env ev2 email2 password2 →
  table w2 !! (email2, "user") = Some user →
  user !! "password" = Some (JStr hash) →
  bcrypt_compare env password2 hash = false →
  let unknown := (AuthHandlers.login env ev1 w1).1 in
  let mismatch := (AuthHandlers.login env ev2 w2).1 in
  Response.statusCode unknown = 401
  ∧ Response.statusCode mismatch = 401
  ∧ Response.body unknown = Response.Failure "Invalid credentials"
  ∧ Response.body mismatch = Response.body unknown
  ∧ (Response.origin_of (Some ev1) = Response.origin_of (Some ev2) →
     mismatch = unknown).
Proof.
  intros Hreq1 Hnone Hreq2 Huser Hhash Hwrong unknown mismatch.
  subst unknown mismatch.
  rewrite (login_eval _ _ _ _ _ Hreq1), Hnone.
  rewrite (login_eval _ _ _ _ _ Hreq2), Huser, Hhash.
  unfold AuthHandlers.compare, ret. rewrite Hwrong. cbn [fst snd].
  unfold Response.unauthorized, Response.response.
  cbn [Response.statusCode Response.body].
  repeat split; try done. by intros ->.
Qed.

Lemma login_failures_are_indistinguishable_witness :
  let unknown := (AuthHandlers.login Demo.env (Demo.login_as "c@x.com" "wrong")
                    Demo.world).1 in
  let mismatch := (AuthHandlers.login Demo.env (Demo.login_as "a@x.com" "wrong")
                     Demo.world).1 in
  table Demo.world !! ("c@x.com", "user") = None
  ∧ table Demo.world !! ("a@x.com", "user") = Some Demo.ann
  ∧ Response.statusCode unknown = 401
  ∧ mismatch = unknown.
Proof.
  intros unknown mismatch.
  assert (table Demo.world !! ("c@x.com", "user") = None) as Hnone
    by (vm_compute; reflexivity).
  assert (table Demo.world !! ("a@x.com", "user") = Some Demo.ann) as Hann
    by (vm_compute; reflexivity).
  split; [exact Hnone|]. split; [exact Hann|].
  destruct (login_failures_are_indistinguishable Demo.env
              (Demo.login_as "c@x.com" "wrong") Demo.world "c@x.com" "wrong"
              (Demo.login_as "a@x.com" "wrong") Demo.world "a@x.com" "wrong"
              Demo.ann "bcrypt:Abc12345!")
    as (Hstatus & _ & _ & _ & Hsame).
  - eexists. split; [reflexivity|]. split; [discriminate|].
    split; [reflexivity|]. split; [reflexivity|]. vm_compute; reflexivity.
  - exact Hnone.
  - eexists. split; [reflexivity|]. split; [discriminate|].
    split; [reflexivity|]. split; [reflexivity|]. vm_compute; reflexivity.
  - exact Hann.
  - vm_compute; reflexivity.
  - vm_compute; reflexivity.
  - split; [exact Hstatus|]. apply Hsame. reflexivity.
Defined.

(** ** Bodies that fail validation, bodies that do not parse *)

(** C8, as stated, fails: a body that is not JSON is not answered with 400.
    [JSON.parse] throws inside the handler's [try], and the [catch] answers
    the generic 500. *)
Lemma unparseable_body_is_not_400 :
  let ev := Event (Demo.bearer "tokA") ∅ SyntaxError in
  Orders.authorize Demo.env ev = inr Demo.alice
  ∧ Response.statusCode (Orders.create Demo.env ev Demo.world).1 = 500
  ∧ Response.statusCode (Orders.create Demo.env ev Demo.world).1 ≠ 400
  ∧ Response.statusCode (AuthHandlers.register Demo.env ev Demo.world).1 = 500
  ∧ Response.statusCode (AuthHandlers.register Demo.env ev Demo.world).1 ≠ 400.
Proof. repeat split; vm_compute; (reflexivity || discriminate). Qed.

(** C8, amended.  A body that parses but fails the schema of the handler is
    answered with 400 and Joi's message, and the world is left as it was: by
    register and login for any body but null, by product create, product
    update and order create for a caller who passes the guard.  A body that
    does not parse is caught at the handler boundary and answered with the
    generic 500, again with the world left as it was. *)
Theorem invalid_body_400_unparseable_500 env ev w :
  (∀ v error, body ev = Parsed v →
     (v ≠ JNull →
      Joi.validate env AuthHandlers.registerSchema (register_input v) = Some error →
      AuthHandlers.register env ev w
      = (Response.badRequest (Joi.message error) (Some ev), w))
     ∧ (v ≠ JNull →
        Joi.validate env AuthHandlers.loginSchema (login_input v) = Some error →
        AuthHandlers.login env ev w
        = (Response.badRequest (Joi.message error) (Some ev), w))
     ∧ (∀ user, Auth.authenticateToken env ev = Auth.Valid user →
        Joi.validate env Products.productSchema v = Some error →
        Products.create env ev w
        = (Response.badRequest (Joi.message error) None, w))
     ∧ (∀ user, Auth.authenticateToken env ev = Auth.Valid user →
        Joi.validate env Products.updateProductSchema v = Some error →
        Products.update env ev w
        = (Response.badRequest (Joi.message error) None, w))
     ∧ (∀ decoded, Orders.authorize env ev = inr decoded →
        Joi.validate env Orders.orderSchema v = Some error →
        Orders.create env ev w
        = (Response.badRequest (Joi.message error) None, w)))
  ∧ (∀ message e, Response.statusCode (Response.badRequest message e) = 400)
  ∧ (body ev = SyntaxError →
     AuthHandlers.register env ev w
     = (Response.serverError "Internal server error" (Some ev), w)
     ∧ AuthHandlers.login env ev w
       = (Response.serverError "Internal server error" (Some ev), w)
     ∧ (∀ user, Auth.authenticateToken env ev = Auth.Valid user →
        Products.create env ev w
        = (Response.serverError "Internal server error" None, w)
        ∧ Products.update env ev w
          = (Response.serverError "Internal server error" None, w))
     ∧ (∀ decoded, Orders.authorize env ev = inr decoded →
        Orders.create env ev w
        = (Response.serverError "Internal server error" None, w))).
Proof.
  split; [|split; [done|]].
  - intros v error Hbody. repeat split.
    + intros Hnull Hinvalid. by apply register_invalid with v.
    + intros Hnull Hinvalid. by apply login_invalid with v.
    + intros user Hauth Hinvalid. by apply create_product_invalid with user v.
    + intros user Hauth Hinvalid. by apply update_invalid with user v.
    + intros decoded Hauth Hinvalid. by apply create_order_invalid with decoded v.
  - intros Hbody. repeat split.
    + by apply register_syntax_error.
    + by apply login_syntax_error.
    + by apply create_product_syntax_error with user.
    + by apply update_syntax_error with user.
    + intros decoded Hauth. by apply create_order_syntax_error with decoded.
Qed.

Lemma invalid_body_400_unparseable_500_witness :
  let free := Demo.line "p1" 1 (Qmake 0 1) in
  let body := JObj [ ("items", JArr [ free ]);
                     ("shippingAddress", Demo.address) ] in
  let ev := Event (Demo.bearer "tokA") ∅ (Parsed body) in
  let error := Joi.Error "items[0].price" Joi.number_positive in
  Joi.validate Demo.env Orders.orderSchema body = Some error
  ∧ Orders.create Demo.env ev Demo.world
    = (Response.badRequest (Joi.message error) None, Demo.world)
  ∧ Response.statusCode (Orders.create Demo.env ev Demo.world).1 = 400.
Proof.
  intros free body ev error.
  assert (Joi.validate Demo.env Orders.orderSchema body = Some error) as Hinvalid
    by (vm_compute; reflexivity).
  split; [exact Hinvalid|].
  destruct (invalid_body_400_unparseable_500 Demo.env ev Demo.world)
    as (Hparsed & Hcode & _).
  destruct (Hparsed body error eq_refl) as (_ & _ & _ & _ & Horder).
  assert (Orders.authorize Demo.env ev = inr Demo.alice) as Hauth
    by (vm_compute; reflexivity).
  rewrite (Horder Demo.alice Hauth Hinvalid).
  split; [reflexivity|]. apply Hcode.
Defined.

(** * Further properties of the handlers and their helpers *)

(** ** The two guards side by side *)

Lemma replace_at_start pat rep s :
  String.prefix pat s = true →
  replace pat rep s = rep +:+ substring_from (String.length pat) s.
Proof.
  intros Hprefix. destruct s as [|c s].
  - change (replace pat rep "")
      with (if String.prefix pat "" then rep +:+ substring_from (String.length pat) ""
            else "").
    by rewrite Hprefix.
  - change (replace pat rep (String c s))
      with (if String.prefix pat (String c s)
            then rep +:+ substring_from (String.length pat) (String c s)
            else String c (replace pat rep s)).
    by rewrite Hprefix.
Qed.

(** X1.  Whatever the guard of src/utils/auth.js lets through, the guard of
    the order handlers lets through with the same claims: on a header that
    starts with "Bearer " cutting out the first "Bearer " leaves the token
    that [substring(7)] leaves. *)
Theorem order_guard_accepts_what_the_shared_guard_accepts env ev user :
  Auth.authenticateToken env ev = Auth.Valid user →
  Orders.authorize env ev = inr user.
Proof.
  intros Hvalid. pose proof (authenticateToken_spec env ev) as Hspec.
  rewrite Hvalid in Hspec. destruct Hspec as (h & Hheader & Hprefix & Hverify).
  unfold Orders.authorize. rewrite Hheader.
  rewrite (replace_at_start _ _ _ Hprefix).
  change (Orders.verifyToken env ("" +:+ substring_from (String.length "Bearer ") h))
    with (Auth.verifyToken env (substring_from 7 h)).
  by rewrite Hverify.
Qed.

Lemma order_guard_accepts_what_the_shared_guard_accepts_witness :
  Auth.authenticateToken Demo.env Demo.post_order = Auth.Valid Demo.alice
  ∧ Orders.authorize Demo.env Demo.post_order = inr Demo.alice.
Proof.
  assert (Auth.authenticateToken Demo.env Demo.post_order = Auth.Valid Demo.alice)
    as H by (vm_compute; reflexivity).
  split; [exact H|].
  exact (order_guard_accepts_what_the_shared_guard_accepts _ _ _ H).
Defined.

(** X2.  Without a JWT_SECRET (unset or empty) no token verifies: both guards
    answer 401 to every request, whatever its headers. *)
Theorem no_secret_no_access env ev :
  JWT_SECRET env = None ∨ JWT_SECRET env = Some "" →
  (∃ r, Auth.authenticateToken env ev = Auth.Invalid r
        ∧ Response.statusCode r = 401)
  ∧ (∃ r, Orders.authorize env ev = inl r ∧ Response.statusCode r = 401).
Proof.
  intros Hsecret.
  assert (∀ token, Auth.verifyToken env token = None) as Hnone.
  { intros token. unfold Auth.verifyToken. by destruct Hsecret as [->| ->]. }
  split.
  - destruct (Auth.authenticateToken env ev) as [user|r] eqn:Hauth.
    + pose proof (authenticateToken_spec env ev) as Hspec.
      rewrite Hauth in Hspec. destruct Hspec as (h & _ & _ & Hverify).
      by rewrite Hnone in Hverify.
    + exists r. split; [done|]. by apply authenticateToken_invalid_401 with env ev.
  - unfold Orders.authorize. destruct (Auth.authHeader ev) as [h|].
    + change (Orders.verifyToken env (replace "Bearer " "" h))
        with (Auth.verifyToken env (replace "Bearer " "" h)).
      rewrite Hnone. by eexists.
    + by eexists.
Qed.

Lemma no_secret_no_access_witness :
  JWT_SECRET Demo.unconfigured = None
  ∧ Response.statusCode
      (Orders.create Demo.unconfigured Demo.post_order Demo.world).1 = 401.
Proof.
  split; [reflexivity|].
  destruct (no_secret_no_access Demo.unconfigured Demo.post_order
              (or_introl eq_refl)) as [_ (r & Hauth & Hcode)].
  unfold Orders.create, try_catch. rewrite Hauth. exact Hcode.
Defined.

(** ** Requests the guard refuses *)

Section Refused.
Context (env : Env).

Lemma delete_unauthorized ev w response :
  Auth.authenticateToken env ev = Auth.Invalid response →
  Products.delete env ev w = (response, w).
Proof. intros Hauth. unfold Products.delete, try_catch. by rewrite Hauth. Qed.

Lemma order_getById_unauthorized ev w response :
  Orders.authorize env ev = inl response →
  Orders.getById env ev w = (response, w).
Proof. intros Hauth. unfold Orders.getById, try_catch. by rewrite Hauth. Qed.

Lemma order_getAll_unauthorized ev w response :
  Orders.authorize env ev = inl response →
  Orders.getAll env ev w = (response, w).
Proof. intros Hauth. unfold Orders.getAll, try_catch. by rewrite Hauth. Qed.

End Refused.

(** X3.  A request that the guard refuses gets the guard's 401 from every
    protected handler, before the body is parsed and before the store is
    touched: the world is left as it was. *)
Theorem refused_request_changes_nothing env ev w :
  (∀ response, Auth.authenticateToken env ev = Auth.Invalid response →
     Response.statusCode response = 401
     ∧ Products.create env ev w = (response, w)
     ∧ Products.update env ev w = (response, w)
     ∧ Products.delete env ev w = (response, w))
  ∧ (∀ response, Orders.authorize env ev = inl response →
       Response.statusCode response = 401
       ∧ Orders.create env ev w = (response, w)
       ∧ Orders.getAll env ev w = (response, w)
       ∧ Orders.getById env ev w = (response, w)).
Proof.
  split; intros response Hauth.
  - split; [by apply authenticateToken_invalid_401 with env ev|].
    split; [by apply create_product_unauthorized|].
    split; [by apply update_unauthorized|by apply delete_unauthorized].
  - split; [by apply authorize_invalid_401 with env ev|].
    split; [by apply create_order_unauthorized|].
    split; [by apply order_getAll_unauthorized|by apply order_getById_unauthorized].
Qed.

Lemma refused_request_changes_nothing_witness :
  let ev := Event ∅ {[ "id" := "p1" ]} (Parsed (JObj [ ("stock", Demo.num 0) ])) in
  Response.statusCode (Products.update Demo.env ev Demo.world).1 = 401
  ∧ (Products.update Demo.env ev Demo.world).2 = Demo.world
  ∧ (Products.delete Demo.env ev Demo.world).2 = Demo.world.
Proof.
  intros ev.
  destruct (refused_request_changes_nothing Demo.env ev Demo.world) as [H _].
  destruct (H (Response.unauthorized "Authorization header required" None))
    as (Hcode & _ & Hupdate & Hdelete).
  - vm_compute; reflexivity.
  - rewrite Hupdate, Hdelete. split; [exact Hcode|]. split; reflexivity.
Defined.

(** ** Products: reading one product *)

Lemma product_getById_eval env ev w id :
  pathParameters ev !! "id" = Some id →
  Products.getById env ev w
  = (match table w !! (id, "product") with
     | None => Response.notFound "Product not found" None
     | Some p => Response.success (Response.Record_ p) None
     end, w).
Proof.
  intros Hid. unfold Products.getById, try_catch. rewrite Hid.
  unfold bind, key_for, ret, Dynamo.get. cbv beta iota.
  by destruct (table w !! (id, "product")).
Qed.

(** X4.  Reading a product needs no credentials and changes nothing: with
    the id bound by the route, the answer is 404 "Product not found" when the
    table has no product under the id, and 200 with the stored record when it
    has.  A record of another type under the same id does not count. *)
Theorem product_getById_404_or_200 env ev w id :
  pathParameters ev !! "id" = Some id →
  let r := Products.getById env ev w in
  r.2 = w
  ∧ (table w !! (id, "product") = None →
     Response.statusCode r.1 = 404
     ∧ Response.body r.1 = Response.Failure "Product not found")
  ∧ (∀ p, table w !! (id, "product") = Some p →
     Response.statusCode r.1 = 200
     ∧ Response.body r.1 = Response.Success (Response.Record_ p)).
Proof.
  intros Hid r. subst r. rewrite (product_getById_eval _ _ _ _ Hid).
  split; [done|]. split.
  - by intros ->.
  - by intros p ->.
Qed.

Lemma product_getById_404_or_200_witness :
  pathParameters (Demo.get_product "o1") !! "id" = Some "o1"
  ∧ table Demo.world !! ("o1", "product") = None
  ∧ Response.statusCode
      (Products.getById Demo.env (Demo.get_product "o1") Demo.world).1 = 404
  ∧ Response.body
      (Products.getById Demo.env (Demo.get_product "p1") Demo.world).1
    = Response.Success (Response.Record_ Demo.pen).
Proof.
  assert (table Demo.world !! ("o1", "product") = None) as Hnone
    by (vm_compute; reflexivity).
  split; [reflexivity|]. split; [exact Hnone|]. split.
  - exact (proj1 (proj1 (proj2 (product_getById_404_or_200 Demo.env
                                  (Demo.get_product "o1") Demo.world "o1"
                                  eq_refl)) Hnone)).
  - refine (proj2 (proj2 (proj2 (product_getById_404_or_200 Demo.env
                                   (Demo.get_product "p1") Demo.world "p1"
                                   eq_refl)) Demo.pen _)).
    vm_compute; reflexivity.
Defined.

(** ** Products: what create stores *)

Section ProductStored.
Context (env : Env).

(** The record [create] builds from the entries of the body. *)
Lemma create_product_exact ev w user o :
  Auth.authenticateToken env ev = Auth.Valid user →
  body ev = Parsed (JObj o) →
  Joi.validate env Products.productSchema (JObj o) = None →
  Products.create env ev w
  = (Response.created (Response.Record_ (new_product env w o)) None,
     MkWorld (<[(uuidv4 env (draws w), "product") := new_product env w o]>
                (table w))
             (S (S (ticks w))) (S (draws w))).
Proof.
  intros Hauth Hbody Hvalid.
  destruct (validate_product_inv _ _ Hvalid) as (o' & [= <-] & Hknown).
  assert (("id" ∉ map fst o) ∧ ("type" ∉ map fst o)) as [Hid Htype].
  { split; intros Hin; apply Hknown, product_fields_not_reserved in Hin; tauto. }
  unfold Products.create, try_catch. rewrite Hauth, Hbody.
  unfold bind, JSON_parse, ret. cbv beta iota. rewrite Hvalid.
  unfold fresh_uuid, now. cbv beta iota.
  cbn [table ticks draws Products.entries].
  fold (new_product env w o).
  assert (Dynamo.key_of (new_product env w o)
          = Some (uuidv4 env (draws w), "product")) as Hkey.
  { assert (new_product env w o !! "id" = Some (JStr (uuidv4 env (draws w))))
      as Hpid.
    { unfold new_product. rewrite !lookup_insert_ne by done.
      rewrite spread_lookup_notin by done. by rewrite lookup_insert_ne. }
    assert (new_product env w o !! "type" = Some (JStr "product")) as Hptype.
    { unfold new_product. rewrite !lookup_insert_ne by done.
      rewrite spread_lookup_notin by done. by rewrite lookup_insert_eq. }
    unfold Dynamo.key_of. by rewrite Hpid, Hptype. }
  unfold Dynamo.put. by rewrite Hkey.
Qed.

(** Every way [create] has of not answering 201 leaves the world alone. *)
Lemma create_product_cases ev w :
  (∃ user o,
     Auth.authenticateToken env ev = Auth.Valid user
     ∧ body ev = Parsed (JObj o)
     ∧ Joi.validate env Products.productSchema (JObj o) = None)
  ∨ (Response.statusCode (Products.create env ev w).1 ≠ 201
     ∧ (Products.create env ev w).2 = w).
Proof.
  destruct (Auth.authenticateToken env ev) as [user|response] eqn:Hauth.
  2:{ right. rewrite (create_product_unauthorized _ _ _ _ Hauth).
      apply authenticateToken_invalid_401 in Hauth. simpl.
      split; [congruence|done]. }
  destruct (body ev) as [|v] eqn:Hbody.
  { right. by rewrite (create_product_syntax_error _ _ _ _ Hauth Hbody). }
  destruct (Joi.validate env Products.productSchema v) as [error|] eqn:Hvalid.
  { right. by rewrite (create_product_invalid _ _ _ _ _ _ Hauth Hbody Hvalid). }
  left. destruct (validate_product_inv _ _ Hvalid) as (o & -> & _).
  by exists user, o.
Qed.

End ProductStored.

(** X5.  A product that was created can be read back: after a create that
    answered 201, [getById] with the id the server drew answers 200 with the
    very record that create returned, to any caller. *)
Theorem product_create_then_getById env ev w ev' :
  Response.statusCode (Products.create env ev w).1 = 201 →
  pathParameters ev' !! "id" = Some (uuidv4 env (draws w)) →
  let created := Products.create env ev w in
  let read := Products.getById env ev' created.2 in
  Response.statusCode read.1 = 200
  ∧ Response.body read.1 = Response.body created.1
  ∧ read.2 = created.2.
Proof.
  intros Hcreated Hid created read. subst created read.
  rewrite (product_getById_eval _ _ _ _ Hid).
  destruct (create_product_cases env ev w)
    as [(user & o & Hauth & Hbody & Hvalid)|[Hfail _]]; [|done].
  rewrite (create_product_exact _ _ _ _ _ Hauth Hbody Hvalid).
  cbn [fst snd table]. by rewrite lookup_insert_eq.
Qed.

Lemma product_create_then_getById_witness :
  let created := Products.create Demo.env Demo.post_product Demo.world in
  let read := Products.getById Demo.env (Demo.get_product "uuid-0") created.2 in
  Response.statusCode created.1 = 201
  ∧ Response.statusCode read.1 = 200
  ∧ Response.body read.1 = Response.body created.1.
Proof.
  intros created read.
  assert (Response.statusCode created.1 = 201) as H by (vm_compute; reflexivity).
  split; [exact H|].
  destruct (product_create_then_getById Demo.env Demo.post_product Demo.world
              (Demo.get_product "uuid-0") H eq_refl) as (Hcode & Hbody & _).
  split; [exact Hcode|exact Hbody].
Defined.

(** X6.  What a successful create stores: the supplied fields as supplied
    (for a body without repeated keys), createdAt and updatedAt as the two
    clock readings of the request, and no attribute beyond these, id and
    type.  It writes under the new key only; a create that does not answer
    201 writes nothing. *)
Theorem product_create_stores_the_supplied_fields env ev w :
  let r := Products.create env ev w in
  (Response.statusCode r.1 ≠ 201 → r.2 = w)
  ∧ (Response.statusCode r.1 = 201 →
     ∃ o (product : item),
       body ev = Parsed (JObj o)
       ∧ table r.2 !! (uuidv4 env (draws w), "product") = Some product
       ∧ (∀ key, key ≠ (uuidv4 env (draws w), "product") →
                 table r.2 !! key = table w !! key)
       ∧ (NoDup (map fst o) → ∀ k v, (k, v) ∈ o → product !! k = Some v)
       ∧ product !! "createdAt" = Some (JStr (toISOString env (ticks w)))
       ∧ product !! "updatedAt" = Some (JStr (toISOString env (S (ticks w))))
       ∧ (∀ k, k ∉ map fst o → k ∉ ["id"; "type"; "createdAt"; "updatedAt"] →
               product !! k = None)).
Proof.
  intros r. subst r.
  destruct (create_product_cases env ev w)
    as [(user & o & Hauth & Hbody & Hvalid)|[Hfail Hsame]]; [|by split].
  rewrite (create_product_exact _ _ _ _ _ Hauth Hbody Hvalid).
  cbn [fst snd table Response.statusCode Response.created Response.response].
  split; [done|]. intros _.
  destruct (validate_product_inv _ _ Hvalid) as (o' & [= <-] & Hknown).
  exists o, (new_product env w o). split; [done|].
  split; [by rewrite lookup_insert_eq|].
  split; [by intros key Hkey; rewrite lookup_insert_ne|].
  unfold new_product. split; [|split; [|split]].
  - intros Hnodup k v Hin.
    assert (k ∈ map fst o) as Hk by (apply list_elem_of_fmap; by exists (k, v)).
    apply Hknown, product_fields_not_reserved in Hk as (_ & _ & Hu & Hc).
    rewrite !lookup_insert_ne by done. by apply spread_lookup_in.
  - rewrite lookup_insert_ne by done. by rewrite lookup_insert_eq.
  - by rewrite lookup_insert_eq.
  - intros k Hk Hreserved.
    rewrite !not_elem_of_cons in Hreserved.
    destruct Hreserved as (Hid & Htype & Hc & Hu & _).
    rewrite !lookup_insert_ne by done.
    rewrite spread_lookup_notin by done.
    rewrite lookup_insert_ne by done. by apply lookup_singleton_ne.
Qed.

Lemma product_create_stores_the_supplied_fields_witness :
  let r := Products.create Demo.env Demo.post_product Demo.world in
  Response.statusCode r.1 = 201
  ∧ ∃ product : item,
      table r.2 !! ("uuid-0", "product") = Some product
      ∧ product !! "name" = Some (JStr "Pen")
      ∧ product !! "createdAt" = Some (JStr "2024-01-01T00:00:00Z")
      ∧ table r.2 !! ("p1", "product") = Some Demo.pen.
Proof.
  intros r.
  assert (Response.statusCode r.1 = 201) as H by (vm_compute; reflexivity).
  split; [exact H|].
  destruct (proj2 (product_create_stores_the_supplied_fields Demo.env
                     Demo.post_product Demo.world) H)
    as (o & product & Hbody & Hstored & Hframe & Hfields & Hcreated & _).
  exists product. split; [exact Hstored|].
  injection Hbody as <-. split; [|split].
  - apply Hfields.
    + apply (bool_decide_unpack _). vm_compute. exact I.
    + apply elem_of_cons. left. reflexivity.
  - exact Hcreated.
  - rewrite Hframe by discriminate. vm_compute; reflexivity.
Defined.

(** ** Products: updating and deleting, further *)

(** X7.  The handler never creates a product by updating it: a valid update
    for an id under which the table has no product is answered 404
    "Product not found" and the world is left as it was. *)
Theorem update_of_a_missing_product_is_404 env ev w id user updateData :
  Auth.authenticateToken env ev = Auth.Valid user →
  pathParameters ev !! "id" = Some id →
  body ev = Parsed updateData →
  Joi.validate env Products.updateProductSchema updateData = None →
  table w !! (id, "product") = None →
  Products.update env ev w
  = (Response.notFound "Product not found" None, w).
Proof.
  intros Hauth Hid Hbody Hvalid Hnone.
  by rewrite (update_valid _ _ _ _ _ Hauth Hbody Hvalid), Hid, Hnone.
Qed.

Lemma update_of_a_missing_product_is_404_witness :
  let ev := Event (Demo.bearer "tokA") {[ "id" := "p9" ]}
              (Parsed (JObj [ ("stock", Demo.num 5) ])) in
  table Demo.world !! ("p9", "product") = None
  ∧ Products.update Demo.env ev Demo.world
    = (Response.notFound "Product not found" None, Demo.world).
Proof.
  intros ev.
  assert (table Demo.world !! ("p9", "product") = None) as Hnone
    by (vm_compute; reflexivity).
  split; [exact Hnone|].
  refine (update_of_a_missing_product_is_404 Demo.env ev Demo.world "p9"
            Demo.alice _ _ eq_refl eq_refl _ Hnone).
  - vm_compute; reflexivity.
  - vm_compute; reflexivity.
Defined.

(** X8.  The empty payload is a valid update: for a product that exists it
    answers 200 and changes nothing but updatedAt, which becomes the clock
    reading of the request. *)
Theorem empty_update_only_refreshes_updatedAt env ev w id user (old : item) :
  Auth.authenticateToken env ev = Auth.Valid user →
  pathParameters ev !! "id" = Some id →
  body ev = Parsed (JObj []) →
  table w !! (id, "product") = Some old →
  let new : item := <["updatedAt" := JStr (toISOString env (ticks w))]> old in
  Products.update env ev w
  = (Response.success (Response.Record_ new) None,
     MkWorld (<[(id, "product") := new]> (table w)) (S (ticks w)) (draws w)).
Proof.
  intros Hauth Hid Hbody Hold new. subst new.
  assert (Joi.validate env Products.updateProductSchema (JObj []) = None)
    as Hvalid by reflexivity.
  rewrite (update_valid _ _ _ _ _ Hauth Hbody Hvalid), Hid, Hold. cbv zeta.
  cbn [Products.entries].
  erewrite dynamo_update_eval;
    [|apply builder_resolves|reflexivity| |exact Hold].
  - reflexivity.
  - simpl. apply NoDup_singleton.
Qed.

Lemma empty_update_only_refreshes_updatedAt_witness :
  let ev := Event (Demo.bearer "tokA") {[ "id" := "p1" ]} (Parsed (JObj [])) in
  let r := Products.update Demo.env ev Demo.world in
  table Demo.world !! ("p1", "product") = Some Demo.pen
  ∧ Response.statusCode r.1 = 200
  ∧ table r.2 !! ("p1", "product")
    = Some (<["updatedAt" := JStr "2024-01-01T00:00:00Z"]> Demo.pen).
Proof.
  intros ev r. subst r.
  assert (table Demo.world !! ("p1", "product") = Some Demo.pen) as Hpen
    by (vm_compute; reflexivity).
  split; [exact Hpen|].
  rewrite (empty_update_only_refreshes_updatedAt Demo.env ev Demo.world "p1"
             Demo.alice Demo.pen); [|vm_compute; reflexivity|reflexivity
                                    |reflexivity|exact Hpen].
  split; [reflexivity|]. cbn [snd table]. apply lookup_insert_eq.
Defined.

(** X9.  After a delete by a caller who passes the guard, reading the same
    id answers 404, whether or not there was a product to delete, and every
    other record of the table is as it was. *)
Theorem delete_then_getById_is_404 env ev w id user ev' :
  Auth.authenticateToken env ev = Auth.Valid user →
  pathParameters ev !! "id" = Some id →
  pathParameters ev' !! "id" = Some id →
  let deleted := Products.delete env ev w in
  Response.statusCode (Products.getById env ev' deleted.2).1 = 404
  ∧ (∀ key, key ≠ (id, "product") → table deleted.2 !! key = table w !! key).
Proof.
  intros Hauth Hid Hid' deleted. subst deleted.
  rewrite (product_getById_eval _ _ _ _ Hid').
  unfold Products.delete, try_catch. rewrite Hauth, Hid.
  unfold bind, key_for, ret, Dynamo.get, Dynamo.remove. cbv beta iota.
  destruct (table w !! (id, "product")) as [p|] eqn:Hget; cbn [fst snd table].
  - rewrite lookup_delete_eq. split; [done|].
    intros key Hkey. by rewrite lookup_delete_ne.
  - by rewrite Hget.
Qed.

Lemma delete_then_getById_is_404_witness :
  let deleted := Products.delete Demo.env Demo.delete_pen Demo.world in
  Auth.authenticateToken Demo.env Demo.delete_pen = Auth.Valid Demo.alice
  ∧ Response.statusCode
      (Products.getById Demo.env (Demo.get_product "p1") Demo.world).1 = 200
  ∧ Response.statusCode
      (Products.getById Demo.env (Demo.get_product "p1") deleted.2).1 = 404
  ∧ table deleted.2 !! ("o1", "order") = Some Demo.order1.
Proof.
  intros deleted.
  assert (Auth.authenticateToken Demo.env Demo.delete_pen = Auth.Valid Demo.alice)
    as Hauth by (vm_compute; reflexivity).
  split; [exact Hauth|]. split; [vm_compute; reflexivity|].
  destruct (delete_then_getById_is_404 Demo.env Demo.delete_pen Demo.world "p1"
              Demo.alice (Demo.get_product "p1") Hauth eq_refl eq_refl)
    as [Hgone Hframe].
  split; [exact Hgone|].
  rewrite Hframe by discriminate. vm_compute; reflexivity.
Defined.

(** ** The update expression *)

Section Expression.
Import Products.

Lemma forEach_shape updateData : ∀ index b,
  Forall placeholders (updateExpressions b) →
  Forall placeholders (updateExpressions (forEach updateData index b))
  ∧ length (updateExpressions (forEach updateData index b))
    = (length (updateExpressions b) + length updateData)%nat.
Proof.
  induction updateData as [|[key value] rest IH]; intros index b Hb.
  - simpl. split; [done|lia].
  - simpl. destruct (IH (S index) (assign b key value index)) as [Hall Hlen].
    + unfold assign. simpl. apply Forall_app. split; [done|].
      by repeat constructor.
    + split; [done|]. rewrite Hlen. unfold assign. simpl.
      rewrite length_app. simpl. lia.
Qed.

End Expression.

(** X10.  The expression the update handler builds for a payload and a
    timestamp names no attribute and no value directly: every assignment is a
    [#...] placeholder set to a [:...] placeholder; there is one per entry of
    the payload and one more, the last, for updatedAt; and through the two
    placeholder maps the assignments read back as the entries of the payload,
    in order, followed by updatedAt with the timestamp. *)
Theorem update_expression_is_placeholders_with_updatedAt_last updateData updatedAt :
  let b := Products.stamp
             (Products.forEach updateData 0 (Products.Builder [] ∅ ∅))
             updatedAt in
  Forall placeholders (Products.updateExpressions b)
  ∧ length (Products.updateExpressions b) = S (length updateData)
  ∧ list.last (Products.updateExpressions b) = Some ("#updatedAt", ":updatedAt")
  ∧ mapM (Dynamo.resolve (Products.expressionAttributeNames b)
            (Products.expressionAttributeValues b))
         (Products.updateExpressions b)
    = Some (updateData ++ [("updatedAt", JStr updatedAt)]).
Proof.
  intros b. subst b.
  destruct (forEach_shape updateData 0 (Products.Builder [] ∅ ∅))
    as [Hall Hlen]; [by constructor|].
  unfold Products.stamp. cbn [Products.updateExpressions].
  split; [|split; [|split]].
  - apply Forall_app. split; [done|]. by repeat constructor.
  - rewrite length_app, Hlen. simpl. lia.
  - apply last_snoc.
  - apply builder_resolves.
Qed.

(** ** Orders, further *)

Section OrderStored.
Context (env : Env).

(** Every way order [create] has of not answering 201 leaves the world
    alone. *)
Lemma create_order_cases ev w :
  (∃ decoded v items lines address,
     Orders.authorize env ev = inr decoded
     ∧ body ev = Parsed v
     ∧ Joi.validate env Orders.orderSchema v = None
     ∧ prop "items" v = Some (JArr items)
     ∧ prop "shippingAddress" v = Some address
     ∧ Forall2 is_line items lines)
  ∨ (Response.statusCode (Orders.create env ev w).1 ≠ 201
     ∧ (Orders.create env ev w).2 = w).
Proof.
  destruct (Orders.authorize env ev) as [response|decoded] eqn:Hauth.
  { right. rewrite (create_order_unauthorized _ _ _ _ Hauth).
    apply authorize_invalid_401 in Hauth. simpl. split; [congruence|done]. }
  destruct (body ev) as [|v] eqn:Hbody.
  { right. by rewrite (create_order_syntax_error _ _ _ _ Hauth Hbody). }
  destruct (Joi.validate env Orders.orderSchema v) as [error|] eqn:Hvalid.
  { right. by rewrite (create_order_invalid _ _ _ _ _ _ Hauth Hbody Hvalid). }
  left. destruct (validate_order_inv _ _ Hvalid)
    as (items & lines & address & Hitems & Haddress & _ & Hlines & _).
  by exists decoded, v, items, lines, address.
Qed.

End OrderStored.

(** X11.  An order that was created can be read back by its owner and by
    nobody else: after a create that answered 201, [getById] with the id the
    server drew answers 200 with the very order that create returned to a
    caller whose token carries the creator's userId, and 401 to a caller
    whose token carries another. *)
Theorem order_create_then_getById env ev w ev' caller :
  Response.statusCode (Orders.create env ev w).1 = 201 →
  Orders.authorize env ev' = inr caller →
  pathParameters ev' !! "id" = Some (uuidv4 env (draws w)) →
  let created := Orders.create env ev w in
  let read := Orders.getById env ev' created.2 in
  ∃ owner,
    Orders.authorize env ev = inr owner
    ∧ (userId caller = userId owner →
       Response.statusCode read.1 = 200
       ∧ Response.body read.1 = Response.body created.1)
    ∧ (userId caller ≠ userId owner →
       Response.statusCode read.1 = 401
       ∧ Response.body read.1 = Response.Failure "Access denied").
Proof.
  intros Hcreated Hauth' Hid created read. subst created read.
  rewrite (getById_eval _ _ _ _ _ Hauth' Hid).
  destruct (create_order_cases env ev w)
    as [(owner & v & items & lines & address & Hauth & Hbody & Hvalid & Hitems
         & Haddress & Hlines)|[Hfail _]]; [|done].
  destruct (create_order_eval _ _ w _ _ _ _ _ Hauth Hbody Hvalid Hitems Haddress
              Hlines) as (order & -> & _ & _ & Huser & _).
  exists owner. split; [done|]. cbn [fst snd table].
  rewrite lookup_insert_eq. split.
  - intros Hsame.
    assert (Orders.not_owner order caller = false) as ->; [|done].
    apply not_owner_false. by rewrite Huser, Hsame.
  - intros Hother.
    destruct (Orders.not_owner order caller) eqn:Hno; [done|].
    apply not_owner_false in Hno. congruence.
Qed.

Lemma order_create_then_getById_witness :
  let created := Orders.create Demo.env Demo.post_order Demo.world in
  let by_owner :=
    Orders.getById Demo.env
      (Event (Demo.bearer "tokA") {[ "id" := "uuid-0" ]} SyntaxError) created.2 in
  let by_other :=
    Orders.getById Demo.env
      (Event (Demo.bearer "tokB") {[ "id" := "uuid-0" ]} SyntaxError) created.2 in
  Response.statusCode created.1 = 201
  ∧ Response.statusCode by_owner.1 = 200
  ∧ Response.body by_owner.1 = Response.body created.1
  ∧ Response.statusCode by_other.1 = 401.
Proof.
  intros created by_owner by_other.
  assert (Response.statusCode created.1 = 201) as H by (vm_compute; reflexivity).
  split; [exact H|].
  destruct (order_create_then_getById Demo.env Demo.post_order Demo.world
              (Event (Demo.bearer "tokA") {[ "id" := "uuid-0" ]} SyntaxError)
              Demo.alice H) as (owner & Hauth & Hsame & _);
    [vm_compute; reflexivity|reflexivity|].
  destruct (order_create_then_getById Demo.env Demo.post_order Demo.world
              (Event (Demo.bearer "tokB") {[ "id" := "uuid-0" ]} SyntaxError)
              Demo.bob H) as (owner' & Hauth' & _ & Hother);
    [vm_compute; reflexivity|reflexivity|].
  injection Hauth as <-. injection Hauth' as <-.
  destruct (Hsame eq_refl) as [Hcode Hbody].
  split; [exact Hcode|]. split; [exact Hbody|].
  apply Hother. discriminate.
Defined.

(** X12.  Order create writes under the new key only, and a create that does
    not answer 201 writes nothing and draws neither an identifier nor a
    timestamp. *)
Theorem order_create_writes_one_record_or_none env ev w :
  let r := Orders.create env ev w in
  (Response.statusCode r.1 ≠ 201 → r.2 = w)
  ∧ (Response.statusCode r.1 = 201 →
     is_Some (table r.2 !! (uuidv4 env (draws w), "order"))
     ∧ (∀ key, key ≠ (uuidv4 env (draws w), "order") →
               table r.2 !! key = table w !! key)
     ∧ draws r.2 = S (draws w)
     ∧ ticks r.2 = S (S (ticks w))).
Proof.
  intros r. subst r.
  destruct (create_order_cases env ev w)
    as [(owner & v & items & lines & address & Hauth & Hbody & Hvalid & Hitems
         & Haddress & Hlines)|[Hfail Hsame]]; [|by split].
  destruct (create_order_eval _ _ w _ _ _ _ _ Hauth Hbody Hvalid Hitems Haddress
              Hlines) as (order & -> & _).
  cbn [fst snd table ticks draws]. split; [done|]. intros _.
  split; [by rewrite lookup_insert_eq|].
  split; [|done]. intros key Hkey. by rewrite lookup_insert_ne.
Qed.

Lemma order_create_writes_one_record_or_none_witness :
  let r := Orders.create Demo.env Demo.post_order Demo.world in
  Response.statusCode r.1 = 201
  ∧ table r.2 !! ("o1", "order") = Some Demo.order1
  ∧ draws r.2 = 1%nat.
Proof.
  intros r.
  assert (Response.statusCode r.1 = 201) as H by (vm_compute; reflexivity).
  split; [exact H|].
  destruct (proj2 (order_create_writes_one_record_or_none Demo.env
                     Demo.post_order Demo.world) H) as (_ & Hframe & Hdraws & _).
  split; [|exact Hdraws].
  rewrite Hframe by discriminate. vm_compute; reflexivity.
Defined.

(** X13.  An order without items is turned away: for a caller who passes the
    guard, a body whose items is the empty array is answered 400 with Joi's
    "items" must contain at least 1 items, whatever else the body holds, and
    nothing is stored. *)
Theorem order_without_items_is_400 env ev w decoded o :
  Orders.authorize env ev = inr decoded →
  body ev = Parsed (JObj o) →
  obj_get "items" o = Some (JArr []) →
  Orders.create env ev w
  = (Response.badRequest
       (Joi.message (Joi.Error "items" (Joi.array_min 1))) None, w).
Proof.
  intros Hauth Hbody Hitems.
  apply create_order_invalid with decoded (JObj o); [done|done|].
  unfold Joi.validate, Orders.orderSchema. simpl. by rewrite Hitems.
Qed.

Lemma order_without_items_is_400_witness :
  let ev := Event (Demo.bearer "tokA") ∅
              (Parsed (JObj [ ("items", JArr []);
                              ("shippingAddress", Demo.address) ])) in
  Orders.authorize Demo.env ev = inr Demo.alice
  ∧ Response.statusCode (Orders.create Demo.env ev Demo.world).1 = 400
  ∧ (Orders.create Demo.env ev Demo.world).2 = Demo.world.
Proof.
  intros ev.
  assert (Orders.authorize Demo.env ev = inr Demo.alice) as Hauth
    by (vm_compute; reflexivity).
  split; [exact Hauth|].
  rewrite (order_without_items_is_400 Demo.env ev Demo.world Demo.alice _ Hauth
             eq_refl eq_refl).
  split; reflexivity.
Defined.

(** ** Listing *)

(** X14.  The listing of products fails for every request and every table:
    its filter names the attribute through the placeholder [#type], [scan]
    sends no ExpressionAttributeNames to define it, the store rejects the
    request, and the handler's catch answers the generic 500. *)
Theorem product_getAll_is_always_500 env ev w :
  Products.getAll env ev w
  = (Response.serverError "Internal server error" None, w).
Proof. reflexivity. Qed.

(** X15.  The listing of orders never lists: a caller the guard refuses gets
    401, and a caller who passes gets the generic 500, for the same reason
    as the listing of products.  The world is left as it was. *)
Theorem order_getAll_is_401_or_500 env ev w :
  let r := Orders.getAll env ev w in
  r.2 = w
  ∧ (∀ decoded, Orders.authorize env ev = inr decoded →
       r.1 = Response.serverError "Internal server error" None)
  ∧ (∀ response, Orders.authorize env ev = inl response →
       r.1 = response ∧ Response.statusCode r.1 = 401).
Proof.
  intros r. subst r. unfold Orders.getAll, try_catch.
  destruct (Orders.authorize env ev) as [response|decoded] eqn:Hauth.
  - split; [done|]. split; [done|]. intros ? [= <-]. split; [done|].
    by apply authorize_invalid_401 with env ev.
  - split; [done|]. split; [done|]. done.
Qed.

Lemma order_getAll_is_401_or_500_witness :
  let ev := Event (Demo.bearer "tokA") ∅ SyntaxError in
  Orders.authorize Demo.env ev = inr Demo.alice
  ∧ Response.statusCode (Orders.getAll Demo.env ev Demo.world).1 = 500.
Proof.
  intros ev.
  assert (Orders.authorize Demo.env ev = inr Demo.alice) as Hauth
    by (vm_compute; reflexivity).
  split; [exact Hauth|].
  rewrite (proj1 (proj2 (order_getAll_is_401_or_500 Demo.env ev Demo.world))
             Demo.alice Hauth).
  reflexivity.
Defined.

(** ** Registration *)

Section Register.
Context (env : Env).
Import AuthHandlers.

Lemma validate_string_inv rules path v :
  Joi.validate_at env (Joi.string_ rules) path v = None →
  ∃ s, v = JStr s ∧ s ≠ ""
       ∧ Joi.first_failure (Joi.check_string_rule env) rules s = None.
Proof.
  simpl. destruct v as [| | |s| |]; try done.
  destruct (String.eqb_spec s "") as [->|Hne]; [done|].
  destruct (Joi.first_failure _ rules s) eqn:Hr; [done|]. by exists s.
Qed.

(** What passing [registerSchema] tells about the body. *)
Lemma validate_register_inv v :
  Joi.validate env registerSchema (register_input v) = None →
  ∃ e p n,
    prop "email" v = Some (JStr e)
    ∧ prop "password" v = Some (JStr p)
    ∧ prop "name" v = Some (JStr n)
    ∧ is_email env e = true
    ∧ e ≠ "" ∧ p ≠ ""
    ∧ (8 ≤ String.length p)%nat
    ∧ password_pattern p = true
    ∧ (2 ≤ String.length n ≤ 50)%nat.
Proof.
  unfold Joi.validate, registerSchema, register_input, literal. intros Hv.
  apply validate_object_inv in Hv as (o & Ho & _ & Hchildren).
  injection Ho as <-. children Hchildren.
  destruct (prop "email" v) as [e|], (prop "password" v) as [p|],
    (prop "name" v) as [n|];
    cbv beta iota in Hchild, Hchild0, Hchild1;
    cbn [obj_get String.eqb Ascii.eqb Bool.eqb fst snd] in Hchild, Hchild0, Hchild1;
    try done.
  apply validate_string_inv in Hchild as (e' & -> & He & Hre).
  apply validate_string_inv in Hchild0 as (p' & -> & Hp & Hrp).
  apply validate_string_inv in Hchild1 as (n' & -> & Hn & Hrn).
  cbn [Joi.first_failure Joi.check_string_rule] in Hre, Hrp, Hrn.
  destruct (is_email env e') eqn:Hemail; [|done].
  destruct (Nat.leb_spec 8 (String.length p')); [|done].
  destruct (password_pattern p') eqn:Hpattern; [|done].
  destruct (Nat.leb_spec 2 (String.length n')); [|done].
  destruct (Nat.leb_spec (String.length n') 50); [|done].
  exists e', p', n'. repeat split; done.
Qed.

(** What [register] computes for a body that passes the schema. *)
Lemma register_valid ev w v e p n :
  body ev = Parsed v → v ≠ JNull →
  Joi.validate env registerSchema (register_input v) = None →
  prop "email" v = Some (JStr e) →
  prop "password" v = Some (JStr p) →
  prop "name" v = Some (JStr n) →
  register env ev w
  = match table w !! (e, "user") with
    | Some _ => (Response.badRequest "User already exists" (Some ev), w)
    | None =>
        let w' := MkWorld (<[(e, "user") := new_user env w e p n]> (table w))
                          (S (ticks w)) (S (draws w)) in
        try_catch
          (let* token := sign env (Claims (uuidv4 env (draws w)) e) in
           ret (Response.created
                  (session token (Claims (uuidv4 env (draws w)) e)
                     (Some (JStr n)))
                  (Some ev))) (Some ev) w'
    end.
Proof.
  intros Hbody Hnull Hvalid He Hp Hn. unfold register, try_catch.
  rewrite Hbody. unfold bind, JSON_parse, ret. cbv beta iota.
  rewrite (destructure_not_null _ _ Hnull). cbv beta iota zeta.
  unfold register_input in Hvalid. rewrite Hvalid, He, Hp, Hn.
  unfold Dynamo.get. cbv beta iota.
  destruct (table w !! (e, "user")) as [existing|]; [done|].
  unfold fresh_uuid, now. cbv beta iota. cbn [table ticks draws].
  fold (new_user env w e p n).
  unfold Dynamo.put.
  replace (Dynamo.key_of (new_user env w e p n)) with (Some (e, "user"))
    by reflexivity.
  cbn [table ticks draws].
  by destruct (sign env (Claims (uuidv4 env (draws w)) e) _) as [[token|err] w''].
Qed.

End Register.

(** X16.  An email can be registered once: a well-formed registration for an
    email that already has a user record is answered 400
    "User already exists", and the record that is there is not touched. *)
Theorem register_existing_email_is_400 env ev w v e (existing : item) :
  body ev = Parsed v → v ≠ JNull →
  Joi.validate env AuthHandlers.registerSchema (register_input v) = None →
  prop "email" v = Some (JStr e) →
  table w !! (e, "user") = Some existing →
  AuthHandlers.register env ev w
  = (Response.badRequest "User already exists" (Some ev), w).
Proof.
  intros Hbody Hnull Hvalid He Hexisting.
  destruct (validate_register_inv _ _ Hvalid)
    as (e' & p & n & He' & Hp & Hn & _).
  rewrite He in He'. injection He' as <-.
  by rewrite (register_valid _ _ _ _ _ _ _ Hbody Hnull Hvalid He Hp Hn),
    Hexisting.
Qed.

Lemma register_existing_email_is_400_witness :
  let ev := Demo.register_as "a@x.com" "Xyz98765!" "Imposter" in
  table Demo.world !! ("a@x.com", "user") = Some Demo.ann
  ∧ Response.statusCode (AuthHandlers.register Demo.env ev Demo.world).1 = 400
  ∧ (AuthHandlers.register Demo.env ev Demo.world).2 = Demo.world.
Proof.
  intros ev.
  assert (table Demo.world !! ("a@x.com", "user") = Some Demo.ann) as Hann
    by (vm_compute; reflexivity).
  split; [exact Hann|].
  rewrite (register_existing_email_is_400 Demo.env ev Demo.world _ "a@x.com"
             Demo.ann eq_refl); [by split| | | |exact Hann].
  - discriminate.
  - vm_compute; reflexivity.
  - reflexivity.
Defined.

(** X17.  A well-formed registration for a new email, with a secret
    configured, answers 201 with a token signed for the new userId and the
    email and with the user's userId, email and name, and with nothing else:
    the password and its hash are not in the response.  The user record is
    stored under (email, "user"); its password attribute is the bcrypt hash
    of the password. *)
Theorem register_new_email_is_201 env ev w v e p n secret :
  body ev = Parsed v → v ≠ JNull →
  Joi.validate env AuthHandlers.registerSchema (register_input v) = None →
  prop "email" v = Some (JStr e) →
  prop "password" v = Some (JStr p) →
  prop "name" v = Some (JStr n) →
  table w !! (e, "user") = None →
  JWT_SECRET env = Some secret → secret ≠ "" →
  let r := AuthHandlers.register env ev w in
  let subject := Claims (uuidv4 env (draws w)) e in
  Response.statusCode r.1 = 201
  ∧ Response.body r.1
    = Response.Success
        (Response.Value
           (JObj [ ("token", JStr (jwt_sign env subject secret));
                   ("user", JObj [ ("userId", JStr (uuidv4 env (draws w)));
                                   ("email", JStr e);
                                   ("name", JStr n) ]) ]))
  ∧ table r.2 = <[(e, "user") := new_user env w e p n]> (table w)
  ∧ new_user env w e p n !! "password" = Some (JStr (bcrypt_hash env p)).
Proof.
  intros Hbody Hnull Hvalid He Hp Hn Hnew Hsecret Hnonempty r subject.
  subst r subject.
  rewrite (register_valid _ _ _ _ _ _ _ Hbody Hnull Hvalid He Hp Hn), Hnew.
  cbv zeta. unfold try_catch, bind, AuthHandlers.sign. rewrite Hsecret.
  destruct (String.eqb_spec secret "") as [->|_]; [done|].
  unfold ret. cbv beta iota. repeat split; reflexivity.
Qed.

Lemma register_new_email_is_201_witness :
  let ev := Demo.register_as "c@x.com" "Abc12345!" "Cy" in
  let r := AuthHandlers.register Demo.env ev Demo.world in
  table Demo.world !! ("c@x.com", "user") = None
  ∧ Response.statusCode r.1 = 201
  ∧ table r.2
    = <[("c@x.com", "user")
        := new_user Demo.env Demo.world "c@x.com" "Abc12345!" "Cy"]>
        (table Demo.world).
Proof.
  intros ev r.
  assert (table Demo.world !! ("c@x.com", "user") = None) as Hnew
    by (vm_compute; reflexivity).
  split; [exact Hnew|].
  assert (Joi.validate Demo.env AuthHandlers.registerSchema
            (register_input
               (JObj [ ("email", JStr "c@x.com"); ("password", JStr "Abc12345!");
                       ("name", JStr "Cy") ])) = None) as Hvalid
    by (vm_compute; reflexivity).
  assert ("s3cret" ≠ "") as Hsecret by discriminate.
  destruct (register_new_email_is_201 Demo.env ev Demo.world _ "c@x.com"
              "Abc12345!" "Cy" "s3cret" eq_refl ltac:(discriminate) Hvalid
              eq_refl eq_refl eq_refl Hnew eq_refl Hsecret)
    as (Hcode & _ & Htable & _).
  split; [exact Hcode|exact Htable].
Defined.

(** X18.  With no JWT_SECRET configured, a well-formed registration for a
    new email stores the user record and then fails: the record is written
    before the token is signed, signing throws, and the answer is the generic
    500.  The caller is told of an error, and the email is taken. *)
Theorem register_without_secret_stores_the_user_and_answers_500
    env ev w v e p n :
  body ev = Parsed v → v ≠ JNull →
  Joi.validate env AuthHandlers.registerSchema (register_input v) = None →
  prop "email" v = Some (JStr e) →
  prop "password" v = Some (JStr p) →
  prop "name" v = Some (JStr n) →
  table w !! (e, "user") = None →
  JWT_SECRET env = None ∨ JWT_SECRET env = Some "" →
  let r := AuthHandlers.register env ev w in
  r.1 = Response.serverError "Internal server error" (Some ev)
  ∧ table r.2 !! (e, "user") = Some (new_user env w e p n)
  ∧ Response.statusCode (AuthHandlers.register env ev r.2).1 = 400.
Proof.
  intros Hbody Hnull Hvalid He Hp Hn Hnew Hsecret r. subst r.
  assert (∀ c w', AuthHandlers.sign env c w' = (Throw "Error", w')) as Hthrow.
  { intros c w'. unfold AuthHandlers.sign. by destruct Hsecret as [->| ->]. }
  assert (AuthHandlers.register env ev w
          = (Response.serverError "Internal server error" (Some ev),
             MkWorld (<[(e, "user") := new_user env w e p n]> (table w))
                     (S (ticks w)) (S (draws w)))) as ->.
  { rewrite (register_valid _ _ w _ _ _ _ Hbody Hnull Hvalid He Hp Hn), Hnew.
    cbv zeta. unfold try_catch, bind. by rewrite Hthrow. }
  cbn [fst snd table].
  split; [done|]. split; [by rewrite lookup_insert_eq|].
  rewrite (register_valid _ _ _ _ _ _ _ Hbody Hnull Hvalid He Hp Hn).
  cbn [table]. by rewrite lookup_insert_eq.
Qed.

Lemma register_without_secret_stores_the_user_and_answers_500_witness :
  let ev := Demo.register_as "c@x.com" "Abc12345!" "Cy" in
  let r := AuthHandlers.register Demo.unconfigured ev Demo.world in
  table Demo.world !! ("c@x.com", "user") = None
  ∧ Response.statusCode r.1 = 500
  ∧ is_Some (table r.2 !! ("c@x.com", "user")).
Proof.
  intros ev r.
  assert (table Demo.world !! ("c@x.com", "user") = None) as Hnew
    by (vm_compute; reflexivity).
  split; [exact Hnew|].
  assert (Joi.validate Demo.unconfigured AuthHandlers.registerSchema
            (register_input
               (JObj [ ("email", JStr "c@x.com"); ("password", JStr "Abc12345!");
                       ("name", JStr "Cy") ])) = None) as Hvalid
    by (vm_compute; reflexivity).
  destruct (register_without_secret_stores_the_user_and_answers_500
              Demo.unconfigured ev Demo.world _ "c@x.com" "Abc12345!" "Cy"
              eq_refl ltac:(discriminate) Hvalid eq_refl eq_refl eq_refl Hnew
              (or_introl eq_refl)) as (Hanswer & Hstored & _).
  split.
  - subst r. rewrite Hanswer. reflexivity.
  - eexists. exact Hstored.
Defined.



(** ** The password policy *)

Lemma first_line_chars s c :
  c ∈ AuthHandlers.first_line s → c ∈ String.list_ascii_of_string s.
Proof.
  induction s as [|a s IH]; simpl; [done|].
  destruct (_ || _); [by intros ?%elem_of_nil|].
  intros [->|Hin]%elem_of_cons; apply elem_of_cons; auto.
Qed.

Lemma existsb_contains class s :
  existsb class (AuthHandlers.first_line s) = true → contains class s.
Proof.
  intros (c & Hin & Hclass)%existsb_exists. exists c. split; [|done].
  by apply first_line_chars, list_elem_of_In.
Qed.

Lemma register_null env ev w :
  body ev = Parsed JNull →
  AuthHandlers.register env ev w
  = (Response.serverError "Internal server error" (Some ev), w).
Proof. intros Hbody. unfold AuthHandlers.register, try_catch. by rewrite Hbody. Qed.

(** X20.  Nobody is registered with a weak password: whenever [register]
    answers 201, the password in the body has at least 8 characters and, on
    its first line, a lowercase letter, an uppercase letter, a digit and one
    of the symbols !@#$%^&*; and the name has 2 to 50 characters. *)
Theorem registered_password_meets_the_policy env ev w :
  Response.statusCode (AuthHandlers.register env ev w).1 = 201 →
  ∃ v e p n,
    body ev = Parsed v
    ∧ prop "email" v = Some (JStr e)
    ∧ prop "password" v = Some (JStr p)
    ∧ prop "name" v = Some (JStr n)
    ∧ is_email env e = true
    ∧ (8 ≤ String.length p)%nat
    ∧ contains (AuthHandlers.in_range 97 122) p
    ∧ contains (AuthHandlers.in_range 65 90) p
    ∧ contains (AuthHandlers.in_range 48 57) p
    ∧ contains is_symbol p
    ∧ (2 ≤ String.length n ≤ 50)%nat.
Proof.
  intros Hcreated.
  destruct (body ev) as [|v] eqn:Hbody.
  { by rewrite (register_syntax_error _ _ _ Hbody) in Hcreated. }
  assert (v ≠ JNull) as Hnull.
  { intros ->. by rewrite (register_null _ _ _ Hbody) in Hcreated. }
  destruct (Joi.validate env AuthHandlers.registerSchema (register_input v))
    as [error|] eqn:Hvalid.
  { by rewrite (register_invalid _ _ _ _ _ Hbody Hnull Hvalid) in Hcreated. }
  destruct (validate_register_inv _ _ Hvalid)
    as (e & p & n & He & Hp & Hn & Hemail & _ & _ & Hlen & Hpattern & Hname).
  exists v, e, p, n. repeat (split; [done|]).
  unfold AuthHandlers.password_pattern in Hpattern.
  apply andb_true_iff in Hpattern as [Hpattern Hsymbol].
  apply andb_true_iff in Hpattern as [Hpattern Hdigit].
  apply andb_true_iff in Hpattern as [Hlower Hupper].
  repeat split; try lia; by apply existsb_contains.
Qed.

Lemma registered_password_meets_the_policy_witness :
  let ev := Demo.register_as "c@x.com" "Abc12345!" "Cy" in
  Response.statusCode (AuthHandlers.register Demo.env ev Demo.world).1 = 201
  ∧ contains is_symbol "Abc12345!".
Proof.
  intros ev.
  assert (Response.statusCode (AuthHandlers.register Demo.env ev Demo.world).1
          = 201) as H by (vm_compute; reflexivity).
  split; [exact H|].
  destruct (registered_password_meets_the_policy Demo.env ev Demo.world H)
    as (v & e & p & n & Hbody & _ & Hp & _ & _ & _ & _ & _ & _ & Hsymbol & _).
  injection Hbody as <-. injection Hp as <-. exact Hsymbol.
Defined.

(** ** The response builder *)

(** X21.  The Access-Control-Allow-Origin header of a response is always an
    origin of the allow-list: the origin of the request when that is on the
    list, and the first entry of the list for any other origin and for a
    request without one.  An origin that is not listed is never echoed. *)
Theorem cors_origin_is_on_the_allow_list code b ev :
  ∃ allowed,
    obj_get "Access-Control-Allow-Origin"
      (Response.headers (Response.response code b ev)) = Some (JStr allowed)
    ∧ allowed ∈ Response.allowedOrigins
    ∧ (∀ origin, Response.origin_of ev = Some origin →
                 origin ∈ Response.allowedOrigins → allowed = origin)
    ∧ (∀ origin, Response.origin_of ev = Some origin →
                 origin ∉ Response.allowedOrigins →
                 allowed = "http://localhost:3000")
    ∧ (Response.origin_of ev = None → allowed = "http://localhost:3000").
Proof.
  unfold Response.response, Response.getCorsHeaders.
  cbn [Response.headers obj_get String.eqb Ascii.eqb Bool.eqb].
  destruct (Response.origin_of ev) as [origin|].
  - destruct (decide (origin ∈ Response.allowedOrigins)) as [Hin|Hout].
    + rewrite bool_decide_eq_true_2 by done. exists origin.
      split; [done|]. split; [done|]. split; [by intros ? [= <-]|].
      split; [by intros ? [= <-]|done].
    + rewrite bool_decide_eq_false_2 by done. eexists.
      split; [done|]. split; [apply elem_of_cons; by left|].
      split; [by intros ? [= <-]|]. split; [done|done].
  - eexists. split; [done|]. split; [apply elem_of_cons; by left|].
    split; [done|]. split; [done|done].
Qed.

Lemma cors_origin_is_on_the_allow_list_witness :
  let ev := Event {[ "origin" := "https://evil.example" ]} ∅ SyntaxError in
  Response.origin_of (Some ev) = Some "https://evil.example"
  ∧ obj_get "Access-Control-Allow-Origin"
      (Response.headers (AuthHandlers.login Demo.env ev Demo.world).1)
    = Some (JStr "http://localhost:3000").
Proof.
  intros ev.
  assert (Response.origin_of (Some ev) = Some "https://evil.example") as Horigin
    by (vm_compute; reflexivity).
  split; [exact Horigin|].
  replace (AuthHandlers.login Demo.env ev Demo.world).1
    with (Response.response 500 (Response.Failure "Internal server error")
            (Some ev)) by (vm_compute; reflexivity).
  destruct (cors_origin_is_on_the_allow_list 500
              (Response.Failure "Internal server error") (Some ev))
    as (allowed & -> & _ & _ & Hother & _).
  rewrite (Hother _ Horigin); [reflexivity|].
  apply (bool_decide_unpack _). vm_compute. exact I.
Defined.

(** ** Handlers that only read *)

Lemma preserves_ret {A} (a : A) : preserves (ret a).
Proof. by intros w. Qed.

Lemma preserves_throw {A} e : preserves (@throw A e).
Proof. by intros w. Qed.

Lemma preserves_bind {A B} (m : js A) (k : A → js B) :
  preserves m → (∀ a, preserves (k a)) → preserves (bind m k).
Proof.
  intros Hm Hk w. unfold bind. specialize (Hm w).
  destruct (m w) as [[a|e] w']; simpl in Hm; subst w'; [apply Hk|done].
Qed.

Lemma preserves_get key : preserves (Dynamo.get key).
Proof. by intros w. Qed.

Lemma try_catch_preserves m ev w : preserves m → (try_catch m ev w).2 = w.
Proof.
  intros Hm. unfold try_catch. specialize (Hm w).
  by destruct (m w) as [[r|e] w'].
Qed.

(** Walks through a handler body that only reads. *)
Ltac reads :=
  repeat first
    [ apply preserves_ret
    | apply preserves_throw
    | apply preserves_get
    | apply preserves_bind; [|intros ?]
    | match goal with
      | |- preserves (match ?x with _ => _ end) => destruct x
      end ].

(** X22.  Login and the four read handlers never change the world, whatever
    the request and whatever they answer: no record is written, no
    identifier and no timestamp is drawn. *)
Theorem readers_leave_the_world_as_it_is env ev w :
  (AuthHandlers.login env ev w).2 = w
  ∧ (Products.getById env ev w).2 = w
  ∧ (Products.getAll env ev w).2 = w
  ∧ (Orders.getById env ev w).2 = w
  ∧ (Orders.getAll env ev w).2 = w.
Proof.
  split; [|split; [|split; [done|split]]].
  - apply try_catch_preserves.
    unfold JSON_parse, AuthHandlers.destructure, AuthHandlers.compare,
      AuthHandlers.sign.
    reads.
  - apply try_catch_preserves. unfold key_for. reads.
  - apply try_catch_preserves. unfold key_for. reads.
  - unfold Orders.getAll, try_catch. by destruct (Orders.authorize env ev).
Qed.

(** ** The store's scan *)



(** ** The body null *)

(** X24.  The JSON body [null] (which is also what a request without a body
    parses to) is treated unevenly: register and login destructure the
    parsed value before they validate it, which throws on null, so they
    answer the generic 500; product create, product update and order create
    validate first and answer 400, for a caller who passes the guard.
    Nothing is stored either way. *)
Theorem null_body_is_500_or_400 env ev w :
  body ev = Parsed JNull →
  AuthHandlers.register env ev w
  = (Response.serverError "Internal server error" (Some ev), w)
  ∧ AuthHandlers.login env ev w
    = (Response.serverError "Internal server error" (Some ev), w)
  ∧ (∀ user, Auth.authenticateToken env ev = Auth.Valid user →
       Response.statusCode (Products.create env ev w).1 = 400
       ∧ (Products.create env ev w).2 = w
       ∧ Response.statusCode (Products.update env ev w).1 = 400
       ∧ (Products.update env ev w).2 = w)
  ∧ (∀ decoded, Orders.authorize env ev = inr decoded →
       Response.statusCode (Orders.create env ev w).1 = 400
       ∧ (Orders.create env ev w).2 = w).
Proof.
  intros Hbody. split; [by apply register_null|]. split.
  { unfold AuthHandlers.login, try_catch. by rewrite Hbody. }
  split.
  - intros user Hauth.
    rewrite (create_product_invalid env ev w user JNull
               (Joi.Error "value" Joi.object_base) Hauth Hbody eq_refl).
    rewrite (update_invalid env ev w user JNull
               (Joi.Error "value" Joi.object_base) Hauth Hbody eq_refl).
    done.
  - intros decoded Hauth.
    by rewrite (create_order_invalid env ev w decoded JNull
                  (Joi.Error "value" Joi.object_base) Hauth Hbody eq_refl).
Qed.

Lemma null_body_is_500_or_400_witness :
  let ev := Event (Demo.bearer "tokA") {[ "id" := "p1" ]} (Parsed JNull) in
  Response.statusCode (AuthHandlers.register Demo.env ev Demo.world).1 = 500
  ∧ Response.statusCode (Orders.create Demo.env ev Demo.world).1 = 400.
Proof.
  intros ev.
  destruct (null_body_is_500_or_400 Demo.env ev Demo.world eq_refl)
    as (Hregister & _ & _ & Horder).
  split.
  - rewrite Hregister. reflexivity.
  - refine (proj1 (Horder Demo.alice _)). vm_compute; reflexivity.
Defined.

(** ** The invariants of a product *)


Lemma obj_get_unique k v o :
  NoDup (map fst o) → (k, v) ∈ o → obj_get k o = Some v.
Proof.
  induction o as [|[k' v'] o IH]; intros Hnodup Hin.
  - by apply elem_of_nil in Hin.
  - simpl in Hnodup. apply list.NoDup_cons in Hnodup as [Hfresh Hnodup].
    simpl. apply elem_of_cons in Hin as [[= -> ->]|Hin].
    + by rewrite String.eqb_refl.
    + destruct (String.eqb_spec k k') as [->|_]; [|by apply IH].
      destruct Hfresh. apply list_elem_of_fmap. by exists (k', v).
Qed.


Section ProductInvariant.
Context (env : Env).




End ProductInvariant.




